(** * Lytikz API: the event store endpoints of [main.py]

    A shallow embedding of the four core handlers of [main.py]
    ([ingest_event], [list_events], [query_events], [ask_question]) over a
    model of the values the handlers see (Python strings, datetimes, dicts)
    and of the document store they call, followed by the properties of the
    handlers. *)

From Stdlib Require Import Bool Arith ZArith NArith List String Ascii Lia.
From Stdlib Require Import Permutation Sorted DecimalString.
Import ListNotations.
Local Open Scope string_scope.
Local Set Warnings "-register-all".
Local Open Scope Z_scope.

(* ================================================================== *)
(** ** Python strings *)
(* ================================================================== *)

(** Text is modelled on its ASCII range: a [string] is the sequence of the
    characters of a Python [str].  Every pattern the handlers look for is
    ASCII and lower case. *)

(** [str.lower] on one character: 'A'..'Z' move to 'a'..'z'. *)
Definition lower_char (c : ascii) : ascii :=
  let n := nat_of_ascii c in
  if ((65 <=? n) && (n <=? 90))%nat then ascii_of_nat (n + 32) else c.

(** [s.lower()] *)
Fixpoint lower (s : string) : string :=
  match s with
  | EmptyString => EmptyString
  | String c r => String (lower_char c) (lower r)
  end.

(** [str.isspace] on one ASCII character: tab, line feed, vertical tab, form
    feed, carriage return, the four separators 0x1c..0x1f and the space. *)
Definition is_space (c : ascii) : bool :=
  let n := nat_of_ascii c in
  (((9 <=? n) && (n <=? 13)) || ((28 <=? n) && (n <=? 32)))%nat.

Fixpoint lstrip (s : string) : string :=
  match s with
  | EmptyString => EmptyString
  | String c r => if is_space c then lstrip r else s
  end.

Fixpoint str_rev_onto (s acc : string) : string :=
  match s with
  | EmptyString => acc
  | String c r => str_rev_onto r (String c acc)
  end.

Definition str_rev (s : string) : string := str_rev_onto s EmptyString.

Definition rstrip (s : string) : string := str_rev (lstrip (str_rev s)).

(** [s.strip()] *)
Definition strip (s : string) : string := rstrip (lstrip s).

(** [pat in s]: [pat] occurs in [s] as a contiguous substring. *)
Fixpoint str_in (pat s : string) : bool :=
  String.prefix pat s ||
  match s with
  | EmptyString => false
  | String _ r => str_in pat r
  end.

(** [s[:n]] *)
Definition str_take (n : nat) (s : string) : string := String.substring 0 n s.

(** [str(n)] for an [int]. *)
Definition str_of_int (n : Z) : string := NilZero.string_of_int (Z.to_int n).

(** One decimal digit as a character. *)
Definition digit_char (d : Z) : ascii := ascii_of_nat (48 + Z.to_nat (d mod 10)).

(** The [w] low decimal digits of [n], most significant first: what
    ["%0wd" % n] prints for [0 <= n < 10^w], which is where the datetime
    fields live. *)
Fixpoint pad_dec (w : nat) (n : Z) (acc : string) : string :=
  match w with
  | O => acc
  | S w' => pad_dec w' (n / 10) (String (digit_char n) acc)
  end.

Definition hex_char (d : N) : ascii :=
  let k := N.to_nat (d mod 16)%N in
  if (k <? 10)%nat then ascii_of_nat (48 + k) else ascii_of_nat (87 + k).

Fixpoint pad_hex (w : nat) (n : N) (acc : string) : string :=
  match w with
  | O => acc
  | S w' => pad_hex w' (n / 16)%N (String (hex_char n) acc)
  end.


(* ================================================================== *)
(** ** Python datetimes *)
(* ================================================================== *)

(** [datetime.datetime]: the calendar fields of the class, and the offset
    from UTC in minutes of an aware value ([None] for a naive one, which is
    how the driver hands stored instants back). *)
Record datetime : Type := mkDatetime {
  year : Z;
  month : Z;
  day : Z;
  hour : Z;
  minute : Z;
  second : Z;
  microsecond : Z;
  utcoffset : option Z
}.

(** The ranges the class enforces on its fields. *)
Definition valid_datetime (t : datetime) : Prop :=
  1 <= year t <= 9999 /\ 1 <= month t <= 12 /\ 1 <= day t <= 31 /\
  0 <= hour t <= 23 /\ 0 <= minute t <= 59 /\ 0 <= second t <= 59 /\
  0 <= microsecond t <= 999999 /\
  match utcoffset t with None => True | Some o => -1440 < o < 1440 end.

(** ["%s%02d:%02d"] of an offset: the sign, hours and minutes. *)
Definition format_offset (o : Z) : string :=
  let a := Z.abs o in
  String (if o <? 0 then "-"%char else "+"%char)
    (pad_dec 2 (a / 60) (String ":"%char (pad_dec 2 (a mod 60) EmptyString))).

(** [t.isoformat()]: [YYYY-MM-DDTHH:MM:SS], then [.ffffff] when the
    microsecond is not zero, then the offset of an aware value. *)
Definition isoformat (t : datetime) : string :=
  pad_dec 4 (year t) (String "-"%char
  (pad_dec 2 (month t) (String "-"%char
  (pad_dec 2 (day t) (String "T"%char
  (pad_dec 2 (hour t) (String ":"%char
  (pad_dec 2 (minute t) (String ":"%char
  (pad_dec 2 (second t)
    ((if microsecond t =? 0 then EmptyString
      else String "."%char (pad_dec 6 (microsecond t) EmptyString)) ++
     match utcoffset t with
     | None => EmptyString
     | Some o => format_offset o
     end))))))))))).

(** Days from 1970-01-01 to a date of the proleptic Gregorian calendar. *)
Definition days_from_civil (y m d : Z) : Z :=
  let y' := if m <=? 2 then y - 1 else y in
  let era := y' / 400 in
  let yoe := y' - era * 400 in
  let mp := (m + 9) mod 12 in
  let doy := (153 * mp + 2) / 5 + d - 1 in
  let doe := yoe * 365 + yoe / 4 - yoe / 100 + doy in
  era * 146097 + doe - 719468.

(** The instant a datetime denotes, in microseconds since the epoch; a
    naive value is read as UTC.  This is the order the store sorts dates
    in. *)
Definition instant (t : datetime) : Z :=
  let mins :=
    (days_from_civil (year t) (month t) (day t) * 24 + hour t) * 60 + minute t
    - match utcoffset t with None => 0 | Some o => o end in
  (mins * 60 + second t) * 1000000 + microsecond t.

Definition option_Z_eqb (a b : option Z) : bool :=
  match a, b with
  | None, None => true
  | Some x, Some y => x =? y
  | _, _ => false
  end.

Definition datetime_eqb (a b : datetime) : bool :=
  (year a =? year b) && (month a =? month b) && (day a =? day b) &&
  (hour a =? hour b) && (minute a =? minute b) && (second a =? second b) &&
  (microsecond a =? microsecond b) && option_Z_eqb (utcoffset a) (utcoffset b).

(** Recogniser of the ISO-8601 shapes [isoformat] prints:
    [dddd-dd-ddTdd:dd:dd], an optional [.dddddd], an optional [+dd:dd] or
    [-dd:dd]. *)
Definition is_digit (c : ascii) : bool :=
  let n := nat_of_ascii c in ((48 <=? n) && (n <=? 57))%nat.

Fixpoint eat_digits (k : nat) (s : string) : option string :=
  match k with
  | O => Some s
  | S k' =>
      match s with
      | String c r => if is_digit c then eat_digits k' r else None
      | EmptyString => None
      end
  end.

Definition eat_char (c : ascii) (s : string) : option string :=
  match s with
  | String c' r => if Ascii.eqb c c' then Some r else None
  | EmptyString => None
  end.

Definition and_then {A B : Type} (o : option A) (f : A -> option B) : option B :=
  match o with
  | Some a => f a
  | None => None
  end.

Definition eat_fraction (s : string) : option string :=
  match eat_char "."%char s with
  | Some r => eat_digits 6 r
  | None => Some s
  end.

Definition eat_offset (s : string) : option string :=
  match s with
  | EmptyString => Some s
  | String c r =>
      if Ascii.eqb c "+"%char || Ascii.eqb c "-"%char
      then and_then (eat_digits 2 r) (fun r => and_then (eat_char ":"%char r) (eat_digits 2))
      else None
  end.

Definition is_iso8601 (s : string) : bool :=
  match
    and_then (eat_digits 4 s) (fun s =>
    and_then (eat_char "-"%char s) (fun s =>
    and_then (eat_digits 2 s) (fun s =>
    and_then (eat_char "-"%char s) (fun s =>
    and_then (eat_digits 2 s) (fun s =>
    and_then (eat_char "T"%char s) (fun s =>
    and_then (eat_digits 2 s) (fun s =>
    and_then (eat_char ":"%char s) (fun s =>
    and_then (eat_digits 2 s) (fun s =>
    and_then (eat_char ":"%char s) (fun s =>
    and_then (eat_digits 2 s) (fun s =>
    and_then (eat_fraction s) eat_offset)))))))))))
  with
  | Some EmptyString => true
  | _ => false
  end.

(* ================================================================== *)
(** ** Documents: Python dicts of JSON-like values *)
(* ================================================================== *)

(** The values a document holds: JSON values (numbers are integers here),
    datetimes, and the store's native identifiers (an ObjectId is a 96-bit
    number).  A dict keeps its items in insertion order. *)
Inductive value : Type :=
| VNone
| VBool (b : bool)
| VInt (n : Z)
| VStr (s : string)
| VDatetime (t : datetime)
| VObjectId (o : N)
| VList (l : list value)
| VDict (d : list (string * value)).

Definition dict : Type := list (string * value).

(** [d.get(k)] *)
Fixpoint dict_get (k : string) (d : dict) : option value :=
  match d with
  | [] => None
  | (k', v) :: r => if String.eqb k k' then Some v else dict_get k r
  end.

(** [k in d] *)
Definition dict_mem (k : string) (d : dict) : bool :=
  match dict_get k d with Some _ => true | None => false end.

(** [d[k] = v]: the item of key [k] is replaced where it stands, a new key
    goes to the end. *)
Fixpoint dict_set (k : string) (v : value) (d : dict) : dict :=
  match d with
  | [] => [(k, v)]
  | (k', v') :: r =>
      if String.eqb k k' then (k, v) :: r else (k', v') :: dict_set k v r
  end.

(** The dict without the key [k]. *)
Definition dict_remove (k : string) (d : dict) : dict :=
  filter (fun kv => negb (String.eqb k (fst kv))) d.

(** [d.pop(k)]: the value and the dict without the key; [None] stands for
    the [KeyError] of a missing key. *)
Definition dict_pop (k : string) (d : dict) : option (value * dict) :=
  match dict_get k d with
  | Some v => Some (v, dict_remove k d)
  | None => None
  end.

(** [d.get(k)] with a missing field read as null, the way the store reads
    a field path. *)
Definition field_or_null (k : string) (d : dict) : value :=
  match dict_get k d with Some v => v | None => VNone end.

(** [str(ObjectId)]: 24 hexadecimal digits. *)
Definition str_ObjectId (o : N) : string := pad_hex 24 o EmptyString.

Definition join_comma (l : list string) : string := String.concat ", " l.

(** The arguments of [repr] of a datetime: seconds and microseconds are
    printed when they are not both zero, the timezone of an aware value as
    [datetime.timezone]. *)
Definition repr_datetime (t : datetime) : string :=
  "datetime.datetime(" ++
  join_comma
    ([str_of_int (year t); str_of_int (month t); str_of_int (day t);
      str_of_int (hour t); str_of_int (minute t)] ++
     (if (second t =? 0) && (microsecond t =? 0) then []
      else if microsecond t =? 0 then [str_of_int (second t)]
      else [str_of_int (second t); str_of_int (microsecond t)]) ++
     match utcoffset t with
     | None => []
     | Some o =>
         ["tzinfo=" ++
          (if o =? 0 then "datetime.timezone.utc"
           else if 0 <? o
           then "datetime.timezone(datetime.timedelta(seconds=" ++ str_of_int (o * 60) ++ "))"
           else "datetime.timezone(datetime.timedelta(days=-1, seconds="
                  ++ str_of_int (86400 + o * 60) ++ "))")]
     end) ++ ")".

(** [repr(v)]; a string is printed between single quotes (no escapes: the
    model is exact for strings without quotes, backslashes and control
    characters). *)
Fixpoint py_repr (v : value) : string :=
  match v with
  | VNone => "None"
  | VBool true => "True"
  | VBool false => "False"
  | VInt n => str_of_int n
  | VStr s => "'" ++ s ++ "'"
  | VDatetime t => repr_datetime t
  | VObjectId o => "ObjectId('" ++ str_ObjectId o ++ "')"
  | VList l => "[" ++ join_comma (map py_repr l) ++ "]"
  | VDict d =>
      "{" ++ join_comma (map (fun kv => "'" ++ fst kv ++ "': " ++ py_repr (snd kv)) d) ++ "}"
  end.

(** [str(v)]: the handlers apply it to the native identifier of a document.
    A string is itself, a datetime prints as [isoformat] with a space for
    the [T], and every other value prints as its [repr]. *)
Definition iso_space (c : ascii) : ascii :=
  if Ascii.eqb c "T"%char then " "%char else c.

Fixpoint str_map (f : ascii -> ascii) (s : string) : string :=
  match s with
  | EmptyString => EmptyString
  | String c r => String (f c) (str_map f r)
  end.

Definition py_str (v : value) : string :=
  match v with
  | VStr s => s
  | VDatetime t => str_map iso_space (isoformat t)
  | VObjectId o => str_ObjectId o
  | _ => py_repr v
  end.

(** Equality of stored values, item by item and in order. *)
Fixpoint value_eqb (a b : value) {struct a} : bool :=
  match a, b with
  | VNone, VNone => true
  | VBool x, VBool y => Bool.eqb x y
  | VInt x, VInt y => x =? y
  | VStr x, VStr y => String.eqb x y
  | VDatetime x, VDatetime y => datetime_eqb x y
  | VObjectId x, VObjectId y => (x =? y)%N
  | VList xs, VList ys =>
      (fix go (xs ys : list value) {struct xs} : bool :=
         match xs, ys with
         | [], [] => true
         | x :: xs', y :: ys' => value_eqb x y && go xs' ys'
         | _, _ => false
         end) xs ys
  | VDict xs, VDict ys =>
      (fix go (xs ys : list (string * value)) {struct xs} : bool :=
         match xs, ys with
         | [], [] => true
         | (k, x) :: xs', (k', y) :: ys' =>
             String.eqb k k' && value_eqb x y && go xs' ys'
         | _, _ => false
         end) xs ys
  | _, _ => false
  end.

(** Induction on values that reaches the items of lists and dicts. *)
Section ValueInduction.

Variable P : value -> Prop.
Hypothesis HNone : P VNone.
Hypothesis HBool : forall b, P (VBool b).
Hypothesis HInt : forall n, P (VInt n).
Hypothesis HStr : forall s, P (VStr s).
Hypothesis HDatetime : forall t, P (VDatetime t).
Hypothesis HObjectId : forall o, P (VObjectId o).
Hypothesis HList : forall l, Forall P l -> P (VList l).
Hypothesis HDict : forall d, Forall (fun kv => P (snd kv)) d -> P (VDict d).

Fixpoint value_nested_ind (v : value) : P v :=
  match v with
  | VNone => HNone
  | VBool b => HBool b
  | VInt n => HInt n
  | VStr s => HStr s
  | VDatetime t => HDatetime t
  | VObjectId o => HObjectId o
  | VList l =>
      HList l ((fix go (l : list value) : Forall P l :=
                  match l with
                  | [] => Forall_nil P
                  | x :: r => Forall_cons x (value_nested_ind x) (go r)
                  end) l)
  | VDict d =>
      HDict d ((fix go (d : list (string * value)) : Forall (fun kv => P (snd kv)) d :=
                  match d with
                  | [] => Forall_nil _
                  | kv :: r => Forall_cons kv (value_nested_ind (snd kv)) (go r)
                  end) d)
  end.

End ValueInduction.

(** [isinstance(v, datetime)] with [v.isoformat()]: the transport form of a
    value, which rewrites a datetime and nothing else. *)
Definition render (v : value) : value :=
  match v with
  | VDatetime t => VStr (isoformat t)
  | _ => v
  end.

(* ================================================================== *)
(** ** Exceptions and HTTP responses *)
(* ================================================================== *)

(** The exceptions a handler body can raise, by cause. *)
Inductive exn : Type :=
| ValidationError (msg : string)
| StorageError (msg : string)
| KeyError (key : string).

(** [str(e)] *)
Definition exn_str (e : exn) : string :=
  match e with
  | ValidationError m => m
  | StorageError m => m
  | KeyError k => "'" ++ k ++ "'"
  end.

Inductive result (A : Type) : Type :=
| Ok (a : A)
| Raise (e : exn).

Arguments Ok {A} a.
Arguments Raise {A} e.

Definition bind {A B : Type} (r : result A) (k : A -> result B) : result B :=
  match r with
  | Ok a => k a
  | Raise e => Raise e
  end.

Notation "x <- e ;; k" := (bind e (fun x => k))
  (at level 61, e at next level, right associativity).

Fixpoint mapM {A B : Type} (f : A -> result B) (l : list A) : result (list B) :=
  match l with
  | [] => Ok []
  | a :: r => b <- f a ;; bs <- mapM f r ;; Ok (b :: bs)
  end.

(** What the caller gets: the body of a 200 response, or an error with its
    status code and detail. *)
Inductive http (A : Type) : Type :=
| Http200 (body : A)
| HttpError (status : Z) (detail : string).

Arguments Http200 {A} body.
Arguments HttpError {A} status detail.

(** [try: ... except Exception as e: raise HTTPException(status_code=500,
    detail=str(e))]: the boundary every handler shares. *)
Definition boundary {A : Type} (r : result A) : http A :=
  match r with
  | Ok a => Http200 a
  | Raise e => HttpError 500 (exn_str e)
  end.

(** The framework's answer to a request that fails the declared model or
    query constraints; the handler is not entered. *)
Definition unprocessable {A : Type} (what : string) : http A :=
  HttpError 422 what.

(* ================================================================== *)
(** ** The document store *)
(* ================================================================== *)

(** A stored document: the identifier the store assigned on insert, and
    the fields that were inserted.  The driver returns it as a dict whose
    [_id] item holds the identifier. *)
Record stored : Type := mkStored {
  doc_id : N;
  doc_fields : dict
}.

Definition to_py (s : stored) : dict := ("_id", VObjectId (doc_id s)) :: doc_fields s.

(** The state of the store: the documents of every collection by name (a
    collection that was never written is empty), the next identifier, and
    whether the store can serve calls ([Some msg]: every call raises with
    the text [msg], as when the database is not configured or not
    reachable). *)
Record Store : Type := mkStore {
  collections : string -> list stored;
  next_oid : N;
  fault : option string
}.

(** [db[name]] *)
Record Collection : Type := mkCollection {
  coll_store : Store;
  coll_name : string
}.

Definition coll_docs (c : Collection) : list dict :=
  map to_py (collections (coll_store c) (coll_name c)).

Definition guard (st : Store) : result unit :=
  match fault st with
  | Some m => Raise (StorageError m)
  | None => Ok tt
  end.

Definition db_getitem (st : Store) (name : string) : result Collection :=
  _ <- guard st ;; Ok (mkCollection st name).

(** An exact-match filter: every item of the filter is an item of the
    document. *)
Definition doc_matches (filt : dict) (d : dict) : bool :=
  forallb (fun kv =>
             match dict_get (fst kv) d with
             | Some v => value_eqb v (snd kv)
             | None => false
             end) filt.

(** [collection.count_documents(filt)] *)
Definition count_documents (c : Collection) (filt : dict) : result Z :=
  _ <- guard (coll_store c) ;;
  Ok (Z.of_nat (List.length (filter (doc_matches filt) (coll_docs c)))).

(** The order the store sorts values in: by kind first (null, numbers,
    strings, documents, arrays, identifiers, booleans, dates), then within
    the kind; two documents or two arrays count as equal here. *)
Definition bson_rank (v : value) : Z :=
  match v with
  | VNone => 1
  | VInt _ => 2
  | VStr _ => 3
  | VDict _ => 4
  | VList _ => 5
  | VObjectId _ => 7
  | VBool _ => 8
  | VDatetime _ => 9
  end.

Definition bson_leb (a b : value) : bool :=
  match a, b with
  | VInt x, VInt y => x <=? y
  | VStr x, VStr y => String.leb x y
  | VObjectId x, VObjectId y => (x <=? y)%N
  | VBool x, VBool y => implb x y
  | VDatetime x, VDatetime y => instant x <=? instant y
  | _, _ => bson_rank a <=? bson_rank b
  end.

(** Order of two documents on a field: [dir = -1] is descending. *)
Definition doc_leb (field : string) (dir : Z) (a b : dict) : bool :=
  if dir <? 0
  then bson_leb (field_or_null field b) (field_or_null field a)
  else bson_leb (field_or_null field a) (field_or_null field b).

Fixpoint insert_sorted {A : Type} (leb : A -> A -> bool) (x : A) (l : list A) : list A :=
  match l with
  | [] => [x]
  | y :: r => if leb x y then x :: l else y :: insert_sorted leb x r
  end.

(** The sort of the model is stable: documents that compare equal keep the
    store's order.  The store leaves the order of ties open, and no
    statement below depends on it. *)
Definition sort_by {A : Type} (leb : A -> A -> bool) (l : list A) : list A :=
  fold_right (insert_sorted leb) [] l.

(** The pipeline stages the handlers use:
    [{"$group": {"_id": "$f", "count": {"$sum": 1}}}],
    [{"$sort": {f: dir}}] and [{"$limit": n}]. *)
Inductive stage : Type :=
| Group (by_field : string)
| Sort (field : string) (dir : Z)
| Limit (n : Z).

(** One more member for the group of key [k]; a new group goes last. *)
Fixpoint bump (k : value) (acc : list (value * Z)) : list (value * Z) :=
  match acc with
  | [] => [(k, 1)]
  | (k', n) :: r => if value_eqb k k' then (k', n + 1) :: r else (k', n) :: bump k r
  end.

(** The groups of a field with their sizes; a document without the field
    belongs to the group of null.  The model lists the groups in order of
    first appearance (the store leaves their order open). *)
Definition group_count (field : string) (docs : list dict) : list (value * Z) :=
  fold_left (fun acc d => bump (field_or_null field d) acc) docs [].

Definition group_doc (g : value * Z) : dict :=
  [("_id", fst g); ("count", VInt (snd g))].

Definition run_stage (s : stage) (docs : list dict) : list dict :=
  match s with
  | Group f => map group_doc (group_count f docs)
  | Sort f dir => sort_by (doc_leb f dir) docs
  | Limit n => firstn (Z.to_nat n) docs
  end.

(** [collection.aggregate(pipeline)], read in full. *)
Definition aggregate (c : Collection) (pipeline : list stage) : result (list dict) :=
  _ <- guard (coll_store c) ;;
  Ok (fold_left (fun docs s => run_stage s docs) pipeline (coll_docs c)).

(** A cursor: the query [find] describes, with the sort and limit set on it
    afterwards; nothing is read before the cursor is listed. *)
Record Cursor : Type := mkCursor {
  cur_coll : Collection;
  cur_filter : dict;
  cur_projection : option (list string);
  cur_sort : option (string * Z);
  cur_limit : Z
}.

(** [collection.find(filt, projection)] *)
Definition find (c : Collection) (filt : dict) (projection : option (list string)) : Cursor :=
  mkCursor c filt projection None 0.

(** [cursor.sort(field, dir)] *)
Definition cursor_sort (field : string) (dir : Z) (cur : Cursor) : Cursor :=
  mkCursor (cur_coll cur) (cur_filter cur) (cur_projection cur) (Some (field, dir)) (cur_limit cur).

(** [cursor.limit(n)] *)
Definition cursor_limit (n : Z) (cur : Cursor) : Cursor :=
  mkCursor (cur_coll cur) (cur_filter cur) (cur_projection cur) (cur_sort cur) n.

(** An inclusion projection keeps [_id] and the named fields. *)
Definition project (fields : list string) (d : dict) : dict :=
  filter (fun kv => String.eqb (fst kv) "_id" || existsb (String.eqb (fst kv)) fields) d.

(** The documents a cursor selects, before the projection: filtered,
    sorted, then cut at the limit (a limit of 0 is no limit). *)
Definition cursor_select (cur : Cursor) : list dict :=
  let matching := filter (doc_matches (cur_filter cur)) (coll_docs (cur_coll cur)) in
  let sorted :=
    match cur_sort cur with
    | Some (f, dir) => sort_by (doc_leb f dir) matching
    | None => matching
    end in
  if cur_limit cur =? 0 then sorted else firstn (Z.to_nat (Z.abs (cur_limit cur))) sorted.

(** [list(cursor)] *)
Definition cursor_list (cur : Cursor) : result (list dict) :=
  _ <- guard (coll_store (cur_coll cur)) ;;
  Ok (match cur_projection cur with
      | Some fields => map (project fields) (cursor_select cur)
      | None => cursor_select cur
      end).

(* ================================================================== *)
(** ** The event schema and the database helpers *)
(* ================================================================== *)

(** [IngestEventPayload] of [main.py]: [event] is required, the other
    fields have defaults.  [payload.model_dump()] is the record itself. *)
Record IngestEventPayload : Type := mkIngestEventPayload {
  payload_event : string;
  payload_user_id : option string;
  payload_properties : dict;
  payload_timestamp : option datetime
}.

(** The complete event record the ingestion builds. *)
Record Event : Type := mkEvent {
  ev_event : string;
  ev_user_id : option string;
  ev_properties : dict;
  ev_timestamp : option datetime
}.

Definition event_required : string :=
  "1 validation error for Event: event must be a non-empty string".

(** Modelled from the spec: the class [Event] of [schemas.py], which is not
    among the sources.  Its contract (spec 4.1): [event] must be a non-empty
    string, an empty value is an input validation failure; the other fields
    are taken as given, and a timestamp that was not supplied stays unset
    for the handler to fill in. *)
Definition Event_new (p : IngestEventPayload) : result Event :=
  match payload_event p with
  | EmptyString => Raise (ValidationError event_required)
  | _ =>
      Ok (mkEvent (payload_event p) (payload_user_id p) (payload_properties p)
            (payload_timestamp p))
  end.

Definition value_of_opt_str (o : option string) : value :=
  match o with Some s => VStr s | None => VNone end.

Definition value_of_opt_datetime (o : option datetime) : value :=
  match o with Some t => VDatetime t | None => VNone end.

(** [evt.model_dump()] *)
Definition Event_dump (e : Event) : dict :=
  [("event", VStr (ev_event e));
   ("user_id", value_of_opt_str (ev_user_id e));
   ("properties", VDict (ev_properties e));
   ("timestamp", value_of_opt_datetime (ev_timestamp e))].

Definition store_insert (st : Store) (name : string) (d : dict) : Store :=
  mkStore
    (fun c => if String.eqb c name
              then (collections st c ++ [mkStored (next_oid st) d])%list
              else collections st c)
    (next_oid st + 1)%N
    (fault st).

(** Modelled from the spec: [create_document] of [database.py], which is
    not among the sources.  Its contract (spec 4.2, insert): it appends the
    one document to the collection and returns the identifier the store
    assigned, as a string; it fails, and writes nothing, when the store
    cannot serve the call. *)
Definition create_document (name : string) (e : Event) (st : Store) : result string * Store :=
  match fault st with
  | Some m => (Raise (StorageError m), st)
  | None => (Ok (str_ObjectId (next_oid st)), store_insert st name (Event_dump e))
  end.

(** Modelled from the spec: [get_documents] of [database.py], which is not
    among the sources.  Its contract (spec 4.2, find): up to [limit]
    documents that match the exact-match filter, in the store's order; it
    fails when the store cannot serve the call. *)
Definition get_documents (st : Store) (name : string) (filt : dict) (limit : Z) : result (list dict) :=
  c <- db_getitem st name ;;
  Ok (firstn (Z.to_nat limit) (filter (doc_matches filt) (coll_docs c))).

(* ================================================================== *)
(** ** The handlers of [main.py] *)
(* ================================================================== *)

(** *** POST /api/events *)

(** The request body before validation: any field may be missing. *)
Record IngestRequest : Type := mkIngestRequest {
  req_event : option string;
  req_user_id : option string;
  req_properties : option dict;
  req_timestamp : option datetime
}.

(** Validation of the body against [IngestEventPayload]: [event: str] has
    no default, [properties] defaults to the empty dict. *)
Definition parse_IngestEventPayload (r : IngestRequest) : option IngestEventPayload :=
  match req_event r with
  | None => None
  | Some e =>
      Some (mkIngestEventPayload e (req_user_id r)
              (match req_properties r with Some d => d | None => [] end)
              (req_timestamp r))
  end.

Record IngestResponse : Type := mkIngestResponse {
  resp_status : string;
  resp_id : string
}.

Definition with_timestamp (e : Event) (t : datetime) : Event :=
  mkEvent (ev_event e) (ev_user_id e) (ev_properties e) (Some t).

(** The body of the [try] of [ingest_event]; [now] is what
    [datetime.now(timezone.utc)] returns when it is called. *)
Definition ingest_event_body (now : datetime) (payload : IngestEventPayload) (st : Store)
  : result IngestResponse * Store :=
  match Event_new payload with
  | Raise e => (Raise e, st)
  | Ok evt =>
      let evt := match ev_timestamp evt with
                 | None => with_timestamp evt now
                 | Some _ => evt
                 end in
      match create_document "event" evt st with
      | (Raise e, st') => (Raise e, st')
      | (Ok inserted_id, st') => (Ok (mkIngestResponse "ok" inserted_id), st')
      end
  end.

Definition ingest_event (now : datetime) (payload : IngestEventPayload) (st : Store)
  : http IngestResponse * Store :=
  let (r, st') := ingest_event_body now payload st in (boundary r, st').

(** The route: the body is validated, then the handler runs. *)
Definition post_api_events (now : datetime) (r : IngestRequest) (st : Store)
  : http IngestResponse * Store :=
  match parse_IngestEventPayload r with
  | None => (unprocessable "event: field required", st)
  | Some payload => ingest_event now payload st
  end.

(** *** GET /api/events *)

(** [normalize] of [list_events] and of [query_events]; the two copies
    differ by a test on [properties] whose branch is [pass].  On a copy of
    the document, [d["id"] = str(d.pop("_id"))] when [_id] is a key, then
    the loop over a snapshot of the items assigns [v.isoformat()] to every
    key whose value is a datetime: the keys and their order stay, so the
    loop is a map over the values. *)
Definition normalize (doc : dict) : dict :=
  let d := doc in
  let d := match dict_pop "_id" d with
           | Some (v, d') => dict_set "id" (VStr (py_str v)) d'
           | None => d
           end in
  map (fun kv => (fst kv, render (snd kv))) d.

(** The body of the [try] of [list_events]. *)
Definition list_events_body (st : Store) (limit : Z) : result (list dict) :=
  docs <- get_documents st "event" [] limit ;;
  Ok (map normalize docs).

Definition list_events (st : Store) (limit : Z) : http (list dict) :=
  boundary (list_events_body st limit).

(** [limit: int = Query(50, ge=1, le=500)] *)
Definition list_limit (q : option Z) : option Z :=
  match q with
  | None => Some 50
  | Some n => if (1 <=? n) && (n <=? 500) then Some n else None
  end.

Definition get_api_events (st : Store) (q : option Z) : http (list dict) :=
  match list_limit q with
  | None => unprocessable "limit: must be between 1 and 500"
  | Some limit => list_events st limit
  end.

(** *** POST /api/query *)

Record QueryPayload : Type := mkQueryPayload {
  query_filter : option dict;
  query_limit : Z
}.

Record QueryRequest : Type := mkQueryRequest {
  req_filter : option dict;
  req_limit : option Z
}.

(** Validation against [QueryPayload]: [filter] defaults to [None],
    [limit: int = 100] has no bounds. *)
Definition parse_QueryPayload (r : QueryRequest) : QueryPayload :=
  mkQueryPayload (req_filter r) (match req_limit r with Some n => n | None => 100 end).

(** [payload.filter or {}] *)
Definition filter_or_empty (f : option dict) : dict :=
  match f with
  | Some (kv :: r) => kv :: r
  | _ => []
  end.

(** The body of the [try] of [query_events]. *)
Definition query_events_body (st : Store) (payload : QueryPayload) : result (list dict) :=
  let filt := filter_or_empty (query_filter payload) in
  docs <- get_documents st "event" filt (query_limit payload) ;;
  Ok (map normalize docs).

Definition query_events (st : Store) (payload : QueryPayload) : http (list dict) :=
  boundary (query_events_body st payload).

Definition post_api_query (st : Store) (r : QueryRequest) : http (list dict) :=
  query_events st (parse_QueryPayload r).

(** *** POST /api/ask *)

Record AskPayload : Type := mkAskPayload {
  question : string;
  ask_event : option string
}.

(** The answer dict: [answer] always, [count] or [items] by intent. *)
Record AskResponse : Type := mkAskResponse {
  answer : string;
  count : option Z;
  items : option (list dict)
}.

(** Truth value of an [Optional[str]]: [None] and the empty string are
    false. *)
Definition truthy (o : option string) : bool :=
  match o with
  | Some (String _ _) => true
  | _ => false
  end.

(** [{"event": payload.event} if payload.event else {}] *)
Definition event_filter (o : option string) : dict :=
  match o with
  | Some (String c r) => [("event", VStr (String c r))]
  | _ => []
  end.

(** [r.get(k, default)] *)
Definition dict_get_default (k : string) (default : value) (d : dict) : value :=
  match dict_get k d with Some v => v | None => default end.

Definition by_user_pipeline : list stage := [Group "user_id"; Sort "count" (-1); Limit 20].

Definition by_event_pipeline : list stage := [Group "event"; Sort "count" (-1); Limit 50].

Definition by_user_item (r : dict) : dict :=
  [("user_id", dict_get_default "_id" VNone r); ("count", dict_get_default "count" (VInt 0) r)].

Definition by_event_item (r : dict) : dict :=
  [("event", dict_get_default "_id" VNone r); ("count", dict_get_default "count" (VInt 0) r)].

(** The loop body over [recent]: [r["id"] = str(r.pop("_id"))], then the
    timestamp is rewritten when it is a datetime. *)
Definition recent_item (r : dict) : result dict :=
  match dict_pop "_id" r with
  | None => Raise (KeyError "_id")
  | Some (v, r') =>
      let r := dict_set "id" (VStr (py_str v)) r' in
      Ok (match dict_get "timestamp" r with
          | Some (VDatetime t) => dict_set "timestamp" (VStr (isoformat t)) r
          | _ => r
          end)
  end.

Definition recent_cursor (collection : Collection) : Cursor :=
  cursor_limit 20
    (cursor_sort "timestamp" (-1)
       (find collection [] (Some ["event"; "user_id"; "timestamp"]))).

(** The body of the [try] of [ask_question]. *)
Definition ask_question_body (st : Store) (payload : AskPayload) : result AskResponse :=
  let q := strip (lower (question payload)) in
  collection <- db_getitem st "event" ;;
  if str_in "total" q
     || (str_in "how many" q && (str_in "event" q || truthy (ask_event payload)))
  then
    let filt := event_filter (ask_event payload) in
    n <- count_documents collection filt ;;
    Ok (mkAskResponse ("Total events: " ++ str_of_int n) (Some n) None)
  else if str_in "by user" q || str_in "per user" q
  then
    res <- aggregate collection by_user_pipeline ;;
    Ok (mkAskResponse "Events by user" None (Some (map by_user_item res)))
  else if str_in "by event" q || str_in "per event" q || str_in "events by name" q
  then
    res <- aggregate collection by_event_pipeline ;;
    Ok (mkAskResponse "Events by event name" None (Some (map by_event_item res)))
  else
    recent <- cursor_list (recent_cursor collection) ;;
    recent <- mapM recent_item recent ;;
    Ok (mkAskResponse "Showing recent events" None (Some recent)).

Definition ask_question (st : Store) (payload : AskPayload) : http AskResponse :=
  boundary (ask_question_body st payload).

(** The database-error text of [test_database]: [str(e)[:50]]. *)
Definition truncated_50 (msg : string) : string := str_take 50 msg.

(* ================================================================== *)
(** ** Stores used as examples *)
(* ================================================================== *)

Definition empty_store : Store := mkStore (fun _ => []) 0%N None.

(** A store that cannot serve calls; [msg] is the text of the exception. *)
Definition faulty_store (msg : string) : Store := mkStore (fun _ => []) 0%N (Some msg).

Definition noon : datetime := mkDatetime 2024 3 9 12 0 0 0 (Some 0).

Definition later (t : datetime) (minutes : Z) : datetime :=
  mkDatetime (year t) (month t) (day t) (hour t) (minute t + minutes) (second t)
    (microsecond t) (utcoffset t).

(** The store after three ingests: two signups, by u1 and by u2, and a
    login by u1. *)
Definition three_events_store : Store :=
  let s := snd (ingest_event noon (mkIngestEventPayload "signup" (Some "u1") [] None) empty_store) in
  let s := snd (ingest_event (later noon 1) (mkIngestEventPayload "signup" (Some "u2") [] None) s) in
  snd (ingest_event (later noon 2) (mkIngestEventPayload "login" (Some "u1") [] None) s).

(** The same store after one more ingest, of an anonymous event with a
    nested property. *)
Definition scenario_store : Store :=
  snd (ingest_event (later noon 3)
         (mkIngestEventPayload "view" None [("page", VDict [("path", VStr "/")])] None)
         three_events_store).

(* ================================================================== *)
(** ** Observations the statements use *)
(* ================================================================== *)

(** The stored events of a given name. *)
Definition events_named (e : string) (docs : list stored) : list stored :=
  filter (fun s => match dict_get "event" (doc_fields s) with
                   | Some (VStr x) => String.eqb x e
                   | _ => false
                   end) docs.

(** What the total-count intent counts: the events named by a non-empty
    event filter, every event otherwise. *)
Definition counted (o : option string) (docs : list stored) : Z :=
  match o with
  | Some (String c r) => Z.of_nat (List.length (events_named (String c r) docs))
  | _ => Z.of_nat (List.length docs)
  end.

Definition total_response (n : Z) : AskResponse :=
  mkAskResponse ("Total events: " ++ str_of_int n) (Some n) None.

(** A stored event has a timestamp that is a datetime. *)
Definition timestamped (s : stored) : Prop :=
  exists t, dict_get "timestamp" (doc_fields s) = Some (VDatetime t).

(** A failure text longer than the 50 characters [test_database] keeps. *)
Definition long_failure : string :=
  "ServerSelectionTimeoutError: db.internal:27017: connection refused".

(** [item] is the normalized form of the document [source] the store
    returned: the native identifier is gone and [id] holds its string; any
    other field is there exactly when the source has it, with a datetime
    replaced by its [isoformat] and every other value, nested ones
    included, as it was. *)
Definition normalized_of (source item : dict) : Prop :=
  (exists i, dict_get "_id" source = Some i /\ dict_get "id" item = Some (VStr (py_str i)))
  /\ dict_get "_id" item = None
  /\ forall k, k <> "_id" -> k <> "id" ->
       dict_get k item = option_map render (dict_get k source).

(** The event name and the user id of a stored event are not datetimes
    (the data model makes them a string and an optional string). *)
Definition no_instant_names (s : stored) : Prop :=
  (forall t, dict_get "event" (doc_fields s) <> Some (VDatetime t))
  /\ (forall t, dict_get "user_id" (doc_fields s) <> Some (VDatetime t)).

(** The total-count rule: the text contains "total", or it contains
    "how many" and either contains "event" or comes with a non-empty event
    filter. *)
Definition total_count_rule (payload : AskPayload) : Prop :=
  let q := strip (lower (question payload)) in
  str_in "total" q = true
  \/ (str_in "how many" q = true
      /\ (str_in "event" q = true
          \/ exists e, ask_event payload = Some e /\ e <> EmptyString)).

(** The question does not trigger the total-count rule. *)
Definition no_total_count (payload : AskPayload) : Prop :=
  let q := strip (lower (question payload)) in
  str_in "total" q = false
  /\ (str_in "how many" q = false
      \/ (str_in "event" q = false
          /\ (ask_event payload = None \/ ask_event payload = Some EmptyString))).

(** The question is for the fallback: none of the three rules matches. *)
Definition unrecognized (payload : AskPayload) : Prop :=
  let q := strip (lower (question payload)) in
  no_total_count payload
  /\ str_in "by user" q = false /\ str_in "per user" q = false
  /\ str_in "by event" q = false /\ str_in "per event" q = false
  /\ str_in "events by name" q = false.

(** The timestamp the store sorts a stored event by (null when it has
    none), and the order of the fallback: [a] is not older than [b]. *)
Definition stamp (s : stored) : value := field_or_null "timestamp" (doc_fields s).

Definition not_older (a b : stored) : Prop := bson_leb (stamp b) (stamp a) = true.

(** [item] is what the fallback returns for the stored event [s]: the
    string of its identifier as [id], its [event] and [user_id] as stored,
    its [timestamp] with a datetime replaced by its [isoformat], and no
    other field. *)
Definition recent_view (s : stored) (item : dict) : Prop :=
  dict_get "id" item = Some (VStr (str_ObjectId (doc_id s)))
  /\ dict_get "event" item = dict_get "event" (doc_fields s)
  /\ dict_get "user_id" item = dict_get "user_id" (doc_fields s)
  /\ dict_get "timestamp" item = option_map render (dict_get "timestamp" (doc_fields s))
  /\ forall k, k <> "id" -> k <> "event" -> k <> "user_id" -> k <> "timestamp" ->
       dict_get k item = None.

(** The key an aggregation groups a stored event under: the value of the
    field, null when the event does not have it. *)
Definition field_key (f : string) (s : stored) : value := field_or_null f (doc_fields s).

(** The stored events whose key on the field [f] is [k]. *)
Definition events_with (f : string) (k : value) (docs : list stored) : list stored :=
  filter (fun s => value_eqb (field_key f s) k) docs.

(** An anonymous event: no [user_id], or a null one. *)
Definition anonymous (s : stored) : bool :=
  match dict_get "user_id" (doc_fields s) with
  | None | Some VNone => true
  | _ => false
  end.

(** The item of shape [{user_id, count}] of one group, and the one of
    shape [{event, count}]. *)
Definition user_group_item (g : value * Z) : dict :=
  [("user_id", fst g); ("count", VInt (snd g))].

Definition event_group_item (g : value * Z) : dict :=
  [("event", fst g); ("count", VInt (snd g))].

(** The members counted for the key [k] in a list of groups. *)
Definition group_size (k : value) (acc : list (value * Z)) : Z :=
  fold_right (fun g n => if value_eqb k (fst g) then snd g + n else n) 0 acc.

(* ================================================================== *)
(** ** GET /test *)
(* ================================================================== *)

(** The database handle [db] as [test_database] uses it: its [name] when
    it has the attribute, and what [db.list_collection_names()] does. *)
Record Database : Type := mkDatabase {
  db_name : option string;
  db_list_collection_names : result (list string)
}.

(** The two environment variables [test_database] reads with
    [os.getenv]: [None] when the variable is not set. *)
Record Environ : Type := mkEnviron {
  env_DATABASE_URL : option string;
  env_DATABASE_NAME : option string
}.

(** The response dict of [test_database], by key.  The literals hold the
    bytes of their UTF-8 encoding. *)
Record TestResponse : Type := mkTestResponse {
  tr_backend : string;
  tr_database : string;
  tr_database_url : option string;
  tr_database_name : option string;
  tr_connection_status : string;
  tr_collections : list string
}.

Definition set_database (v : string) (r : TestResponse) : TestResponse :=
  mkTestResponse (tr_backend r) v (tr_database_url r) (tr_database_name r)
    (tr_connection_status r) (tr_collections r).

Definition set_database_url (v : string) (r : TestResponse) : TestResponse :=
  mkTestResponse (tr_backend r) (tr_database r) (Some v) (tr_database_name r)
    (tr_connection_status r) (tr_collections r).

Definition set_database_name (v : string) (r : TestResponse) : TestResponse :=
  mkTestResponse (tr_backend r) (tr_database r) (tr_database_url r) (Some v)
    (tr_connection_status r) (tr_collections r).

Definition set_connection_status (v : string) (r : TestResponse) : TestResponse :=
  mkTestResponse (tr_backend r) (tr_database r) (tr_database_url r)
    (tr_database_name r) v (tr_collections r).

Definition set_collections (v : list string) (r : TestResponse) : TestResponse :=
  mkTestResponse (tr_backend r) (tr_database r) (tr_database_url r)
    (tr_database_name r) (tr_connection_status r) v.

Definition test_initial : TestResponse :=
  mkTestResponse "✅ Running" "❌ Not Available" None None "Not Connected" [].

(** The body of the outer [try]: it updates the response in place and
    raises nothing of its own, the failure of the listing being caught by
    the inner [try]. *)
Definition test_database_try (db : option Database) (r : TestResponse)
  : result unit * TestResponse :=
  match db with
  | Some d =>
      let r := set_database "✅ Available" r in
      let r := set_database_url "✅ Configured" r in
      let r := set_database_name
                 (match db_name d with Some n => n | None => "✅ Connected" end) r in
      let r := set_connection_status "Connected" r in
      match db_list_collection_names d with
      | Ok names =>
          let r := set_collections (firstn 10 names) r in
          (Ok tt, set_database "✅ Connected & Working" r)
      | Raise e =>
          (Ok tt, set_database ("⚠️  Connected but Error: " ++ str_take 50 (exn_str e)) r)
      end
  | None => (Ok tt, set_database "⚠️  Available but not initialized" r)
  end.

(** [test_database]: the outer [try] with its handler, then the two fields
    that are set from the environment whatever happened before. *)
Definition test_database (db : option Database) (env : Environ) : TestResponse :=
  let r :=
    match test_database_try db test_initial with
    | (Ok _, r) => r
    | (Raise e, r) => set_database ("❌ Error: " ++ str_take 50 (exn_str e)) r
    end in
  let r := set_database_url (if truthy (env_DATABASE_URL env) then "✅ Set" else "❌ Not Set") r in
  set_database_name (if truthy (env_DATABASE_NAME env) then "✅ Set" else "❌ Not Set") r.

(** A string of whitespace only. *)
Fixpoint all_space (s : string) : bool :=
  match s with
  | EmptyString => true
  | String c r => is_space c && all_space r
  end.


(** How much the count of the total-count intent grows when an event of
    name [name] is added: by one, unless a non-empty event filter names
    another event. *)
Definition count_step (o : option string) (name : string) : Z :=
  match o with
  | Some (String c r) => if String.eqb name (String c r) then 1 else 0
  | _ => 1
  end.

(* ================================================================== *)
(** * Properties *)
(* ================================================================== *)

(** ** Sanity checks of the string and datetime model *)

Example lower_strip_ex : strip (lower "  Total Events BY User ") = "total events by user".
Proof. reflexivity. Qed.

Example str_in_ex : str_in "by user" "total events by user" = true /\ str_in "per user" "total" = false.
Proof. split; reflexivity. Qed.

Example str_of_int_ex : str_of_int 42 = "42" /\ str_of_int 0 = "0".
Proof. split; reflexivity. Qed.

Example pad_ex : pad_dec 4 987 EmptyString = "0987" /\ pad_hex 4 255 EmptyString = "00ff".
Proof. split; reflexivity. Qed.

Example isoformat_naive :
  isoformat (mkDatetime 2024 3 9 7 5 0 0 None) = "2024-03-09T07:05:00".
Proof. reflexivity. Qed.

Example isoformat_aware :
  isoformat (mkDatetime 2024 3 9 7 5 0 120000 (Some 0)) = "2024-03-09T07:05:00.120000+00:00".
Proof. reflexivity. Qed.

Example instant_epoch :
  instant (mkDatetime 1970 1 1 0 0 0 0 None) = 0 /\
  instant (mkDatetime 2024 3 9 7 5 0 0 (Some 120)) = instant (mkDatetime 2024 3 9 5 5 0 0 None) /\
  days_from_civil 2000 3 1 = 11017.
Proof. repeat split; reflexivity. Qed.

Example is_iso8601_ex :
  is_iso8601 "2024-03-09T07:05:00.120000+00:00" = true /\
  is_iso8601 "2024-03-09T07:05:00" = true /\
  is_iso8601 "2024-03-09 07:05" = false.
Proof. repeat split; reflexivity. Qed.

(* ================================================================== *)
(** ** The store answers when it has no fault *)
(* ================================================================== *)

Section Healthy.

Variable st : Store.
Hypothesis healthy : fault st = None.

Lemma guard_healthy : guard st = Ok tt.
Proof. unfold guard. now rewrite healthy. Qed.

Lemma db_getitem_healthy (name : string) :
  db_getitem st name = Ok (mkCollection st name).
Proof. unfold db_getitem. now rewrite guard_healthy. Qed.

Lemma count_documents_healthy (name : string) (filt : dict) :
  count_documents (mkCollection st name) filt
  = Ok (Z.of_nat (List.length (filter (doc_matches filt) (map to_py (collections st name))))).
Proof. unfold count_documents; simpl. now rewrite guard_healthy. Qed.

Lemma aggregate_healthy (name : string) (pipeline : list stage) :
  aggregate (mkCollection st name) pipeline
  = Ok (fold_left (fun docs s => run_stage s docs) pipeline (map to_py (collections st name))).
Proof. unfold aggregate; simpl. now rewrite guard_healthy. Qed.

Lemma get_documents_healthy (name : string) (filt : dict) (limit : Z) :
  get_documents st name filt limit
  = Ok (firstn (Z.to_nat limit) (filter (doc_matches filt) (map to_py (collections st name)))).
Proof. unfold get_documents. now rewrite db_getitem_healthy. Qed.

End Healthy.

Section Faulty.

Variable st : Store.
Variable msg : string.
Hypothesis broken : fault st = Some msg.

Lemma guard_faulty : guard st = Raise (StorageError msg).
Proof. unfold guard. now rewrite broken. Qed.

Lemma db_getitem_faulty (name : string) :
  db_getitem st name = Raise (StorageError msg).
Proof. unfold db_getitem. now rewrite guard_faulty. Qed.

Lemma get_documents_faulty (name : string) (filt : dict) (limit : Z) :
  get_documents st name filt limit = Raise (StorageError msg).
Proof. unfold get_documents. now rewrite db_getitem_faulty. Qed.

End Faulty.

(** An error response of the boundary comes from a raised exception, has
    status 500 and carries the text of the exception in full. *)
Lemma boundary_error {A : Type} (r : result A) (s : Z) (d : string) :
  boundary r = HttpError s d -> s = 500 /\ exists e, r = Raise e /\ d = exn_str e.
Proof.
  destruct r as [a | e]; simpl; intros H; inversion H; subst.
  split; [reflexivity | now exists e].
Qed.

(* ================================================================== *)
(** ** Ask: the total-count intent *)
(* ================================================================== *)

Lemma doc_matches_event (e : string) (s : stored) :
  doc_matches [("event", VStr e)] (to_py s)
  = match dict_get "event" (doc_fields s) with
    | Some (VStr x) => String.eqb x e
    | _ => false
    end.
Proof.
  unfold doc_matches, to_py; simpl.
  destruct (dict_get "event" (doc_fields s)) as [v |]; [| reflexivity].
  rewrite andb_true_r. destruct v; reflexivity.
Qed.

Lemma filter_length_map {A B : Type} (f : A -> B) (p : B -> bool) (q : A -> bool) (l : list A) :
  (forall a, p (f a) = q a) ->
  List.length (filter p (map f l)) = List.length (filter q l).
Proof.
  intros H. induction l as [| a l IH]; simpl; [reflexivity |].
  rewrite H. destruct (q a); simpl; now rewrite IH.
Qed.

Lemma count_event_filter (st : Store) (o : option string) :
  Z.of_nat (List.length (filter (doc_matches (event_filter o)) (map to_py (collections st "event"))))
  = counted o (collections st "event").
Proof.
  unfold counted, events_named.
  destruct o as [[| c r] |]; simpl event_filter.
  - rewrite (filter_length_map to_py _ (fun _ => true)) by reflexivity.
    f_equal. clear. induction (collections st "event"); simpl; congruence.
  - f_equal. apply filter_length_map. intros s. apply doc_matches_event.
  - rewrite (filter_length_map to_py _ (fun _ => true)) by reflexivity.
    f_equal. clear. induction (collections st "event"); simpl; congruence.
Qed.

(** The branch the dispatcher takes is decided by one boolean of the
    normalised question and the event filter. *)
Lemma ask_body_total (st : Store) (payload : AskPayload) :
  fault st = None ->
  str_in "total" (strip (lower (question payload)))
  || (str_in "how many" (strip (lower (question payload)))
      && (str_in "event" (strip (lower (question payload))) || truthy (ask_event payload))) = true ->
  ask_question_body st payload
  = Ok (total_response (counted (ask_event payload) (collections st "event"))).
Proof.
  intros Hs Hrule. unfold ask_question_body.
  rewrite (db_getitem_healthy st Hs). cbn [bind]. rewrite Hrule.
  rewrite (count_documents_healthy st Hs). cbn [bind].
  now rewrite count_event_filter.
Qed.

Lemma ask_body_other (st : Store) (payload : AskPayload) (n : Z) :
  str_in "total" (strip (lower (question payload)))
  || (str_in "how many" (strip (lower (question payload)))
      && (str_in "event" (strip (lower (question payload))) || truthy (ask_event payload))) = false ->
  ask_question_body st payload <> Ok (total_response n).
Proof.
  intros Hrule. unfold ask_question_body, total_response.
  destruct (db_getitem st "event") as [c | e]; cbn [bind]; [| discriminate].
  rewrite Hrule.
  repeat match goal with
         | |- context [if ?b then _ else _] => destruct b
         | |- context [bind ?r _] => destruct r; cbn [bind]
         end; intros H; inversion H.
Qed.

Lemma truthy_iff (o : option string) :
  truthy o = true <-> exists e, o = Some e /\ e <> EmptyString.
Proof.
  destruct o as [[| c r] |]; simpl; split; intros H; try discriminate.
  - destruct H as [e [He Hne]]. inversion He. subst. now elim Hne.
  - exists (String c r). split; [reflexivity | discriminate].
  - reflexivity.
  - destruct H as [e [He _]]. discriminate.
Qed.

(** C1.  A question whose lower-cased, trimmed text contains both "total"
    and "by user" is answered by the total-count intent: the answer is
    "Total events: n" with the count field n, where n counts the stored
    events (those named by the event filter when one is given), and it is
    not the answer of the by-user intent.  The total-count rule is tested
    first. *)
Theorem ask_total_wins_over_by_user (st : Store) (payload : AskPayload) :
  fault st = None ->
  str_in "total" (strip (lower (question payload))) = true ->
  str_in "by user" (strip (lower (question payload))) = true ->
  ask_question st payload
  = Http200 (mkAskResponse
               ("Total events: " ++ str_of_int (counted (ask_event payload) (collections st "event")))
               (Some (counted (ask_event payload) (collections st "event")))
               None)
  /\ forall its, ask_question st payload <> Http200 (mkAskResponse "Events by user" None its).
Proof.
  intros Hs Htotal _.
  assert (Hbody : ask_question_body st payload
                  = Ok (total_response (counted (ask_event payload) (collections st "event")))).
  { apply ask_body_total; [exact Hs |]. now rewrite Htotal. }
  unfold ask_question. rewrite Hbody. simpl. split; [reflexivity |].
  intros its H. inversion H.
Qed.

Lemma ask_total_wins_over_by_user_witness :
  fault scenario_store = None /\
  str_in "total" (strip (lower "Total events BY user")) = true /\
  str_in "by user" (strip (lower "Total events BY user")) = true /\
  ask_question scenario_store (mkAskPayload "Total events BY user" None)
  = Http200 (mkAskResponse "Total events: 4" (Some 4) None).
Proof.
  split; [reflexivity | split; [reflexivity | split; [reflexivity |]]].
  exact (proj1 (ask_total_wins_over_by_user scenario_store
                  (mkAskPayload "Total events BY user" None)
                  eq_refl eq_refl eq_refl)).
Defined.

(** C2, as amended.  With a store that answers, the dispatcher takes the
    total-count branch if and only if the lower-cased, trimmed text
    contains "total", or contains "how many" and (contains "event" or a
    non-empty event filter was supplied); in that branch the count is over
    the events named by the filter when the filter is non-empty and over
    every event otherwise, and the answer is "Total events: n" with that
    count n.  An event filter that is the empty string counts as no
    filter. *)
Theorem ask_total_count_rule (st : Store) (payload : AskPayload) :
  fault st = None ->
  ((exists n, ask_question st payload
              = Http200 (mkAskResponse ("Total events: " ++ str_of_int n) (Some n) None))
   <-> total_count_rule payload)
  /\ (total_count_rule payload ->
      ask_question st payload
      = Http200 (mkAskResponse
                   ("Total events: "
                      ++ str_of_int (counted (ask_event payload) (collections st "event")))
                   (Some (counted (ask_event payload) (collections st "event")))
                   None))
  /\ counted None (collections st "event")
     = Z.of_nat (List.length (collections st "event"))
  /\ counted (Some EmptyString) (collections st "event")
     = Z.of_nat (List.length (collections st "event"))
  /\ (forall c r,
        counted (Some (String c r)) (collections st "event")
        = Z.of_nat (List.length
                      (filter (fun s => match dict_get "event" (doc_fields s) with
                                        | Some (VStr x) => String.eqb x (String c r)
                                        | _ => false
                                        end) (collections st "event")))).
Proof.
  intros Hs.
  assert (Hrule_iff :
            str_in "total" (strip (lower (question payload)))
            || (str_in "how many" (strip (lower (question payload)))
                && (str_in "event" (strip (lower (question payload)))
                    || truthy (ask_event payload))) = true
            <-> total_count_rule payload).
  { unfold total_count_rule. cbv zeta.
    rewrite orb_true_iff, andb_true_iff, orb_true_iff, truthy_iff. reflexivity. }
  split; [| split; [| split; [| split]]]; try reflexivity.
  - split.
    + intros [n Hn]. apply Hrule_iff.
      destruct (str_in "total" (strip (lower (question payload)))
                || (str_in "how many" (strip (lower (question payload)))
                    && (str_in "event" (strip (lower (question payload)))
                        || truthy (ask_event payload)))) eqn:Hrule; [reflexivity |].
      exfalso. unfold ask_question in Hn.
      destruct (ask_question_body st payload) as [a | e] eqn:Hbody; simpl in Hn;
        [| discriminate].
      inversion Hn. subst a. now apply (ask_body_other st payload n Hrule).
    + intros Hrule. apply Hrule_iff in Hrule.
      eexists. unfold ask_question. rewrite (ask_body_total st payload Hs Hrule).
      reflexivity.
  - intros Hrule. apply Hrule_iff in Hrule.
    unfold ask_question. now rewrite (ask_body_total st payload Hs Hrule).
Qed.

Lemma ask_total_count_rule_witness :
  fault scenario_store = None
  /\ total_count_rule (mkAskPayload "How many?" (Some "signup"))
  /\ ask_question scenario_store (mkAskPayload "How many?" (Some "signup"))
     = Http200 (mkAskResponse "Total events: 2" (Some 2) None).
Proof.
  assert (Hrule : total_count_rule (mkAskPayload "How many?" (Some "signup"))).
  { right. split; [reflexivity |]. right.
    exists "signup". split; [reflexivity | discriminate]. }
  split; [reflexivity | split; [exact Hrule |]].
  exact (proj1 (proj2 (ask_total_count_rule scenario_store
                         (mkAskPayload "How many?" (Some "signup")) eq_refl)) Hrule).
Defined.

(** C2 as stated fails for an event filter that is supplied and empty.
    The question "how many" with the filter [""] is answered by the
    fallback, not by the total-count intent; and the question "total" with
    the filter [""] counts every event (4 in the scenario store), not the
    events whose name is the empty string (there are none). *)
Lemma ask_empty_event_filter_is_no_filter :
  ask_event (mkAskPayload "how many" (Some EmptyString)) <> None
  /\ str_in "how many" (strip (lower (question (mkAskPayload "how many" (Some EmptyString))))) = true
  /\ ask_question empty_store (mkAskPayload "how many" (Some EmptyString))
     = Http200 (mkAskResponse "Showing recent events" None (Some []))
  /\ ask_question scenario_store (mkAskPayload "total" (Some EmptyString))
     = Http200 (mkAskResponse "Total events: 4" (Some 4) None)
  /\ List.length (filter (doc_matches [("event", VStr EmptyString)])
                    (map to_py (collections scenario_store "event"))) = 0%nat.
Proof.
  split; [discriminate |]. repeat split.
Qed.

(* ================================================================== *)
(** ** Ingestion *)
(* ================================================================== *)

Lemma Event_new_ok (p : IngestEventPayload) :
  payload_event p <> EmptyString ->
  Event_new p = Ok (mkEvent (payload_event p) (payload_user_id p) (payload_properties p)
                      (payload_timestamp p)).
Proof.
  unfold Event_new. destruct (payload_event p); [intros H; now elim H | reflexivity].
Qed.

Lemma Event_new_empty (p : IngestEventPayload) :
  payload_event p = EmptyString ->
  Event_new p = Raise (ValidationError event_required).
Proof. unfold Event_new. now intros ->. Qed.

(** A failed build of the event leaves the handler before the insert. *)
Lemma ingest_body_build_failure (now : datetime) (p : IngestEventPayload) (st : Store) (e : exn) :
  Event_new p = Raise e -> ingest_event_body now p st = (Raise e, st).
Proof. unfold ingest_event_body. now intros ->. Qed.

(** The event that is handed to the store: the payload's fields, and the
    clock's reading for a timestamp that was not supplied. *)
Lemma ingest_body_success (now : datetime) (p : IngestEventPayload) (st : Store) :
  fault st = None ->
  payload_event p <> EmptyString ->
  ingest_event_body now p st
  = (Ok (mkIngestResponse "ok" (str_ObjectId (next_oid st))),
     store_insert st "event"
       (Event_dump (mkEvent (payload_event p) (payload_user_id p) (payload_properties p)
                      (Some (match payload_timestamp p with Some t => t | None => now end))))).
Proof.
  intros Hs He. unfold ingest_event_body. rewrite (Event_new_ok p He).
  unfold create_document. rewrite Hs.
  destruct (payload_timestamp p); reflexivity.
Qed.

Lemma ingest_body_storage_failure (now : datetime) (p : IngestEventPayload) (st : Store) (m : string) :
  fault st = Some m ->
  payload_event p <> EmptyString ->
  ingest_event_body now p st = (Raise (StorageError m), st).
Proof.
  intros Hs He. unfold ingest_event_body. rewrite (Event_new_ok p He).
  unfold create_document. rewrite Hs.
  destruct (payload_timestamp p); reflexivity.
Qed.

Lemma store_insert_event (st : Store) (d : dict) :
  collections (store_insert st "event" d) "event"
  = (collections st "event" ++ [mkStored (next_oid st) d])%list.
Proof. reflexivity. Qed.

(** C3.  A payload without the [event] field, or with the empty string for
    it, is rejected as an input validation failure: the route answers with
    an error (the framework's 422 for the missing field, the handler's 500
    with the validation message for the empty one) and the store is left
    as it was, so no event is persisted. *)
Theorem ingest_rejects_missing_or_empty_event (now : datetime) (r : IngestRequest) (st : Store) :
  req_event r = None \/ req_event r = Some EmptyString ->
  (exists status detail, post_api_events now r st = (HttpError status detail, st))
  /\ (req_event r = None -> parse_IngestEventPayload r = None)
  /\ (req_event r = Some EmptyString ->
      exists p, parse_IngestEventPayload r = Some p
                /\ Event_new p = Raise (ValidationError event_required)
                /\ ingest_event_body now p st = (Raise (ValidationError event_required), st)).
Proof.
  intros H. unfold post_api_events, parse_IngestEventPayload.
  destruct H as [H | H]; rewrite H.
  - split; [| split].
    + now exists 422, "event: field required".
    + reflexivity.
    + discriminate.
  - split; [| split].
    + exists 500, event_required. reflexivity.
    + discriminate.
    + intros _. eexists. split; [reflexivity |]. split; reflexivity.
Qed.

Lemma ingest_rejects_missing_or_empty_event_witness :
  (req_event (mkIngestRequest (Some EmptyString) (Some "u1") None None) = None
   \/ req_event (mkIngestRequest (Some EmptyString) (Some "u1") None None) = Some EmptyString)
  /\ exists status detail,
       post_api_events noon (mkIngestRequest (Some EmptyString) (Some "u1") None None) scenario_store
       = (HttpError status detail, scenario_store).
Proof.
  split; [right; reflexivity |].
  exact (proj1 (ingest_rejects_missing_or_empty_event noon
                  (mkIngestRequest (Some EmptyString) (Some "u1") None None) scenario_store
                  (or_intror eq_refl))).
Defined.

Lemma ingest_keeps_timestamped (now : datetime) (p : IngestEventPayload) (st : Store) :
  Forall timestamped (collections st "event") ->
  Forall timestamped (collections (snd (ingest_event now p st)) "event").
Proof.
  intros Hall. unfold ingest_event.
  destruct (ingest_event_body now p st) as [r st'] eqn:Hbody. simpl.
  destruct (string_dec (payload_event p) EmptyString) as [He | He].
  - rewrite (ingest_body_build_failure now p st _ (Event_new_empty p He)) in Hbody.
    inversion Hbody. now subst.
  - destruct (fault st) as [m |] eqn:Hs.
    + rewrite (ingest_body_storage_failure now p st m Hs He) in Hbody.
      inversion Hbody. now subst.
    + rewrite (ingest_body_success now p st Hs He) in Hbody.
      inversion Hbody. subst. rewrite store_insert_event.
      apply Forall_app. split; [exact Hall |].
      constructor; [| constructor]. eexists. reflexivity.
Qed.

(** C4.  When the store accepts the event, exactly one document is
    appended to the event collection; its timestamp is the clock's reading
    (the current UTC instant) when the payload has none, the payload's own
    otherwise, and in both cases a datetime, never null.  Whatever the
    payload and the outcome, a collection in which every event has a
    timestamp stays so. *)
Theorem ingest_timestamp_never_null (now : datetime) (p : IngestEventPayload) (st : Store) :
  fault st = None ->
  payload_event p <> EmptyString ->
  (exists d,
      ingest_event now p st
      = (Http200 (mkIngestResponse "ok" (str_ObjectId (next_oid st))), store_insert st "event" d)
      /\ collections (snd (ingest_event now p st)) "event"
         = (collections st "event" ++ [mkStored (next_oid st) d])%list
      /\ (payload_timestamp p = None -> dict_get "timestamp" d = Some (VDatetime now))
      /\ (forall t, payload_timestamp p = Some t -> dict_get "timestamp" d = Some (VDatetime t))
      /\ (exists t, dict_get "timestamp" d = Some (VDatetime t))
      /\ dict_get "timestamp" d <> Some VNone /\ dict_get "timestamp" d <> None)
  /\ (Forall timestamped (collections st "event") ->
      Forall timestamped (collections (snd (ingest_event now p st)) "event")).
Proof.
  intros Hs He. split; [| apply ingest_keeps_timestamped].
  eexists. unfold ingest_event. rewrite (ingest_body_success now p st Hs He). simpl.
  split; [reflexivity |]. split; [reflexivity |].
  destruct (payload_timestamp p) as [t |]; repeat split; try discriminate.
  - intros t' Ht. now inversion Ht.
  - now exists t.
  - now exists now.
Qed.

Lemma ingest_timestamp_never_null_witness :
  fault empty_store = None /\
  payload_event (mkIngestEventPayload "signup" (Some "u1") [] None) <> EmptyString /\
  exists d,
    ingest_event noon (mkIngestEventPayload "signup" (Some "u1") [] None) empty_store
    = (Http200 (mkIngestResponse "ok" (str_ObjectId 0)), store_insert empty_store "event" d)
    /\ dict_get "timestamp" d = Some (VDatetime noon).
Proof.
  split; [reflexivity | split; [discriminate |]].
  destruct (proj1 (ingest_timestamp_never_null noon
                     (mkIngestEventPayload "signup" (Some "u1") [] None) empty_store
                     eq_refl ltac:(discriminate)))
    as [d [Hresp [_ [Hnow _]]]].
  exists d. split; [exact Hresp | exact (Hnow eq_refl)].
Defined.

(** C10.  Ingestion is atomic on a validation error: when building the
    complete event fails, the handler answers with a failure and the store
    is exactly what it was; the insert is not reached. *)
Theorem ingest_atomic_on_validation_error
  (now : datetime) (p : IngestEventPayload) (st : Store) (e : exn) :
  Event_new p = Raise e ->
  ingest_event now p st = (HttpError 500 (exn_str e), st)
  /\ snd (ingest_event now p st) = st
  /\ collections (snd (ingest_event now p st)) "event" = collections st "event"
  /\ next_oid (snd (ingest_event now p st)) = next_oid st.
Proof.
  intros Hbuild.
  assert (H : ingest_event now p st = (HttpError 500 (exn_str e), st)).
  { unfold ingest_event. now rewrite (ingest_body_build_failure now p st e Hbuild). }
  rewrite H. repeat split.
Qed.

Lemma ingest_atomic_on_validation_error_witness :
  Event_new (mkIngestEventPayload EmptyString None [("k", VInt 1)] (Some noon))
  = Raise (ValidationError event_required)
  /\ ingest_event noon (mkIngestEventPayload EmptyString None [("k", VInt 1)] (Some noon))
       scenario_store
     = (HttpError 500 event_required, scenario_store).
Proof.
  split; [reflexivity |].
  exact (proj1 (ingest_atomic_on_validation_error noon
                  (mkIngestEventPayload EmptyString None [("k", VInt 1)] (Some noon))
                  scenario_store (ValidationError event_required) eq_refl)).
Defined.

(* ================================================================== *)
(** ** Limits of list and query *)
(* ================================================================== *)

Lemma list_limit_in_range (n : Z) : 1 <= n <= 500 -> list_limit (Some n) = Some n.
Proof.
  intros [H1 H2]. unfold list_limit.
  apply Z.leb_le in H1. apply Z.leb_le in H2. now rewrite H1, H2.
Qed.

Lemma list_limit_out_of_range (n : Z) : ~ 1 <= n <= 500 -> list_limit (Some n) = None.
Proof.
  intros H. unfold list_limit.
  destruct (1 <=? n) eqn:H1; destruct (n <=? 500) eqn:H2; try reflexivity.
  apply Z.leb_le in H1. apply Z.leb_le in H2. elim H. lia.
Qed.

(** C8.  [list] accepts a limit exactly when it lies in [1, 500] and then
    uses it unchanged; any other limit is answered with a caller error
    (422) whatever the store holds, and is not clamped; the default is 50.
    [query] takes every limit as it is given, with default 100, and with a
    store that answers it returns a 200 response whatever the limit. *)
Theorem list_bounds_query_unbounded :
  (forall n, list_limit (Some n) = Some n <-> 1 <= n <= 500)
  /\ (forall n m, list_limit (Some n) = Some m -> m = n)
  /\ (forall st n, ~ 1 <= n <= 500 ->
        get_api_events st (Some n) = HttpError 422 "limit: must be between 1 and 500")
  /\ (forall st n, 1 <= n <= 500 -> get_api_events st (Some n) = list_events st n)
  /\ list_limit (Some 0) = None /\ list_limit (Some 501) = None
  /\ list_limit (Some 1) = Some 1 /\ list_limit (Some 500) = Some 500
  /\ list_limit None = Some 50
  /\ (forall f n, query_limit (parse_QueryPayload (mkQueryRequest f (Some n))) = n)
  /\ (forall f, query_limit (parse_QueryPayload (mkQueryRequest f None)) = 100)
  /\ (forall st f n, fault st = None ->
        exists docs, post_api_query st (mkQueryRequest f (Some n)) = Http200 docs).
Proof.
  split; [| split; [| split; [| split]]].
  - intros n. split.
    + intros H. destruct (Z_le_dec 1 n) as [H1 | H1]; destruct (Z_le_dec n 500) as [H2 | H2];
        try (split; assumption);
        rewrite list_limit_out_of_range in H by lia; discriminate.
    + apply list_limit_in_range.
  - intros n m H. unfold list_limit in H.
    destruct ((1 <=? n) && (n <=? 500)); now inversion H.
  - intros st n H. unfold get_api_events. now rewrite (list_limit_out_of_range n H).
  - intros st n H. unfold get_api_events. now rewrite (list_limit_in_range n H).
  - do 5 (split; [reflexivity |]).
    split; [intros f n; reflexivity |].
    split; [intros f; reflexivity |].
    intros st f n Hs. unfold post_api_query, query_events, query_events_body.
    rewrite (get_documents_healthy st Hs). simpl. eexists. reflexivity.
Qed.

Lemma list_bounds_query_unbounded_witness :
  get_api_events scenario_store (Some 501) = HttpError 422 "limit: must be between 1 and 500"
  /\ get_api_events scenario_store (Some 0) = HttpError 422 "limit: must be between 1 and 500"
  /\ get_api_events scenario_store (Some 500) = list_events scenario_store 500
  /\ exists docs, post_api_query scenario_store (mkQueryRequest None (Some 100000)) = Http200 docs.
Proof.
  destruct list_bounds_query_unbounded as [_ [_ [Hout [Hin [_ [_ [_ [_ [_ [_ [_ Hq]]]]]]]]]]].
  split; [apply Hout; lia |].
  split; [apply Hout; lia |].
  split; [apply Hin; lia |].
  exact (Hq scenario_store None 100000 eq_refl).
Defined.

(* ================================================================== *)
(** ** Failures at the boundary *)
(* ================================================================== *)

(** C9, as amended.  Every failure caught at the boundary of ingest, list,
    query or ask becomes one generic server-side failure: the status is
    500 whatever the cause, and the detail is the text of the exception as
    it is, in full.  A failure of the store reaches the caller of each of
    the four handlers with status 500 and the store's whole message, and a
    validation failure of ingest with status 500 and the validation
    message: the status does not tell the two apart. *)
Theorem boundary_failure_is_generic_500 :
  (forall now p st s d,
      fst (ingest_event now p st) = HttpError s d ->
      s = 500 /\ exists e, fst (ingest_event_body now p st) = Raise e /\ d = exn_str e)
  /\ (forall st limit s d,
      list_events st limit = HttpError s d ->
      s = 500 /\ exists e, list_events_body st limit = Raise e /\ d = exn_str e)
  /\ (forall st payload s d,
      query_events st payload = HttpError s d ->
      s = 500 /\ exists e, query_events_body st payload = Raise e /\ d = exn_str e)
  /\ (forall st payload s d,
      ask_question st payload = HttpError s d ->
      s = 500 /\ exists e, ask_question_body st payload = Raise e /\ d = exn_str e)
  /\ (forall st m, fault st = Some m ->
      (forall limit, list_events st limit = HttpError 500 m)
      /\ (forall payload, query_events st payload = HttpError 500 m)
      /\ (forall payload, ask_question st payload = HttpError 500 m)
      /\ (forall now p, payload_event p <> EmptyString ->
            ingest_event now p st = (HttpError 500 m, st)))
  /\ (forall now p st, payload_event p = EmptyString ->
      ingest_event now p st = (HttpError 500 event_required, st)).
Proof.
  split; [| split; [| split; [| split; [| split]]]].
  - intros now p st s d. unfold ingest_event.
    destruct (ingest_event_body now p st) as [r st']. simpl. apply boundary_error.
  - intros st limit s d. apply boundary_error.
  - intros st payload s d. apply boundary_error.
  - intros st payload s d. apply boundary_error.
  - intros st m Hs. split; [| split; [| split]].
    + intros limit. unfold list_events, list_events_body.
      now rewrite (get_documents_faulty st m Hs).
    + intros payload. unfold query_events, query_events_body.
      now rewrite (get_documents_faulty st m Hs).
    + intros payload. unfold ask_question, ask_question_body.
      now rewrite (db_getitem_faulty st m Hs).
    + intros now p He. unfold ingest_event.
      now rewrite (ingest_body_storage_failure now p st m Hs He).
  - intros now p st He. unfold ingest_event.
    now rewrite (ingest_body_build_failure now p st _ (Event_new_empty p He)).
Qed.

(** C9 as stated fails on the word "truncated": a store failure whose text
    has 66 characters reaches the caller of ask, list and query with all 66
    of them, not with the 50 that the diagnostic endpoint keeps. *)
Lemma failure_detail_is_not_truncated :
  ask_question (faulty_store long_failure) (mkAskPayload "total" None)
  = HttpError 500 long_failure
  /\ list_events (faulty_store long_failure) 50 = HttpError 500 long_failure
  /\ query_events (faulty_store long_failure) (mkQueryPayload None 100)
     = HttpError 500 long_failure
  /\ fst (ingest_event noon (mkIngestEventPayload "signup" None [] None)
            (faulty_store long_failure))
     = HttpError 500 long_failure
  /\ String.length long_failure = 66%nat
  /\ String.length (truncated_50 long_failure) = 50%nat
  /\ long_failure <> truncated_50 long_failure.
Proof.
  repeat (split; [reflexivity |]). discriminate.
Qed.

(* ================================================================== *)
(** ** Dicts *)
(* ================================================================== *)

Lemma dict_get_set_same (k : string) (v : value) (d : dict) :
  dict_get k (dict_set k v d) = Some v.
Proof.
  induction d as [| [k' v'] d IH]; simpl.
  - now rewrite String.eqb_refl.
  - destruct (String.eqb k k') eqn:E; simpl.
    + now rewrite String.eqb_refl.
    + now rewrite E.
Qed.

Lemma dict_get_set_other (k k' : string) (v : value) (d : dict) :
  k' <> k -> dict_get k' (dict_set k v d) = dict_get k' d.
Proof.
  intros Hne. apply String.eqb_neq in Hne.
  induction d as [| [k0 v0] d IH]; simpl.
  - now rewrite Hne.
  - destruct (String.eqb k k0) eqn:E; simpl.
    + apply String.eqb_eq in E. subst k0. now rewrite Hne.
    + now rewrite IH.
Qed.

Lemma dict_get_remove_same (k : string) (d : dict) :
  dict_get k (dict_remove k d) = None.
Proof.
  unfold dict_remove.
  induction d as [| [k' v'] d IH]; simpl; [reflexivity |].
  destruct (String.eqb k k') eqn:E; simpl; [exact IH |].
  now rewrite E.
Qed.

Lemma dict_get_remove_other (k k' : string) (d : dict) :
  k' <> k -> dict_get k' (dict_remove k d) = dict_get k' d.
Proof.
  intros Hne. unfold dict_remove.
  induction d as [| [k0 v0] d IH]; simpl; [reflexivity |].
  destruct (String.eqb k k0) eqn:E; simpl.
  - apply String.eqb_eq in E. subst k0.
    apply String.eqb_neq in Hne. now rewrite Hne.
  - now rewrite IH.
Qed.

Lemma dict_get_map_values (f : value -> value) (k : string) (d : dict) :
  dict_get k (map (fun kv => (fst kv, f (snd kv))) d) = option_map f (dict_get k d).
Proof.
  induction d as [| [k' v'] d IH]; simpl; [reflexivity |].
  now destruct (String.eqb k k').
Qed.

Lemma dict_get_project (fields : list string) (k : string) (d : dict) :
  dict_get k (project fields d)
  = if String.eqb k "_id" || existsb (String.eqb k) fields then dict_get k d else None.
Proof.
  unfold project.
  induction d as [| [k' v'] d IH]; simpl.
  - now destruct (String.eqb k "_id" || existsb (String.eqb k) fields).
  - destruct (String.eqb k k') eqn:E.
    + apply String.eqb_eq in E. subst k'.
      destruct (String.eqb k "_id" || existsb (String.eqb k) fields) eqn:Hk; simpl.
      * now rewrite String.eqb_refl.
      * exact IH.
    + destruct (String.eqb k' "_id" || existsb (String.eqb k') fields); simpl.
      * now rewrite E.
      * exact IH.
Qed.

Lemma dict_get_to_py (k : string) (s : stored) :
  k <> "_id" -> dict_get k (to_py s) = dict_get k (doc_fields s).
Proof.
  intros Hne. unfold to_py. simpl.
  apply String.eqb_neq in Hne. now rewrite Hne.
Qed.

(* ================================================================== *)
(** ** Equality and order of stored values *)
(* ================================================================== *)

Lemma option_Z_eqb_eq (a b : option Z) : option_Z_eqb a b = true <-> a = b.
Proof.
  destruct a, b; simpl; split; intros H; try discriminate; try reflexivity.
  - apply Z.eqb_eq in H. now subst.
  - inversion H. apply Z.eqb_refl.
Qed.

Lemma datetime_eqb_eq (a b : datetime) : datetime_eqb a b = true <-> a = b.
Proof.
  unfold datetime_eqb. split.
  - intros H. repeat (apply andb_true_iff in H; destruct H as [H ?]).
    destruct a, b; simpl in *.
    repeat match goal with
           | E : (_ =? _) = true |- _ => apply Z.eqb_eq in E
           | E : option_Z_eqb _ _ = true |- _ => apply option_Z_eqb_eq in E
           end.
    now subst.
  - intros ->. rewrite !Z.eqb_refl. simpl. now apply option_Z_eqb_eq.
Qed.

Lemma value_eqb_eq (a b : value) : value_eqb a b = true <-> a = b.
Proof.
  revert b. induction a as [| x | x | x | x | x | xs IH | xs IH] using value_nested_ind;
    intros b; destruct b as [| y | y | y | y | y | ys | ys]; simpl;
    try (split; [discriminate | discriminate]); try (split; reflexivity).
  - split; intros H; [apply Bool.eqb_prop in H; now subst | inversion H; apply Bool.eqb_reflx].
  - split; intros H; [apply Z.eqb_eq in H; now subst | inversion H; apply Z.eqb_refl].
  - split; intros H; [apply String.eqb_eq in H; now subst | inversion H; apply String.eqb_refl].
  - split; intros H; [apply datetime_eqb_eq in H; now subst | inversion H; now apply datetime_eqb_eq].
  - split; intros H; [apply N.eqb_eq in H; now subst | inversion H; apply N.eqb_refl].
  - revert ys. induction IH as [| x xs Hx _ IHxs]; intros ys; destruct ys as [| y ys];
      try (split; [discriminate | discriminate]); try (split; reflexivity).
    split.
    + intros H. apply andb_true_iff in H. destruct H as [H1 H2].
      apply Hx in H1. apply IHxs in H2. inversion H2. now subst.
    + intros H. inversion H. subst. apply andb_true_iff. split.
      * now apply Hx.
      * now apply IHxs.
  - revert ys. induction IH as [| [k x] xs Hx _ IHxs]; intros ys; destruct ys as [| [k' y] ys];
      try (split; [discriminate | discriminate]); try (split; reflexivity).
    simpl in Hx. split.
    + intros H. apply andb_true_iff in H. destruct H as [H1 H2].
      apply andb_true_iff in H1. destruct H1 as [H0 H1].
      apply String.eqb_eq in H0. apply Hx in H1. apply IHxs in H2. inversion H2. now subst.
    + intros H. inversion H. subst. rewrite String.eqb_refl. simpl.
      apply andb_true_iff. split.
      * now apply Hx.
      * now apply IHxs.
Qed.

Lemma value_eqb_refl (a : value) : value_eqb a a = true.
Proof. now apply value_eqb_eq. Qed.

Lemma value_eqb_neq (a b : value) : value_eqb a b = false <-> a <> b.
Proof.
  split.
  - intros H E. apply value_eqb_eq in E. congruence.
  - intros H. destruct (value_eqb a b) eqn:E; [| reflexivity].
    apply value_eqb_eq in E. contradiction.
Qed.

Lemma ascii_compare_cases (x y : ascii) :
  (Ascii.compare x y = Eq /\ x = y)
  \/ (Ascii.compare x y = Lt /\ (N_of_ascii x < N_of_ascii y)%N)
  \/ (Ascii.compare x y = Gt /\ (N_of_ascii y < N_of_ascii x)%N).
Proof.
  unfold Ascii.compare.
  destruct (N.compare_spec (N_of_ascii x) (N_of_ascii y)) as [E | L | G].
  - left. split; [reflexivity |].
    rewrite <- (ascii_N_embedding x), <- (ascii_N_embedding y). now rewrite E.
  - right. left. now split.
  - right. right. now split.
Qed.

Lemma string_leb_trans (a b c : string) :
  String.leb a b = true -> String.leb b c = true -> String.leb a c = true.
Proof.
  unfold String.leb. revert b c.
  induction a as [| x a IH]; intros [| y b] [| z c]; simpl; try easy.
  destruct (ascii_compare_cases x y) as [[Exy Hxy] | [[Exy Hxy] | [Exy Hxy]]];
    destruct (ascii_compare_cases y z) as [[Eyz Hyz] | [[Eyz Hyz] | [Eyz Hyz]]];
    destruct (ascii_compare_cases x z) as [[Exz Hxz] | [[Exz Hxz] | [Exz Hxz]]];
    rewrite Exy, Eyz, Exz; try easy; subst; try lia.
  apply IH.
Qed.

Lemma bson_leb_total (a b : value) : bson_leb a b = true \/ bson_leb b a = true.
Proof.
  destruct a as [| x | x | x | x | x | x | x], b as [| y | y | y | y | y | y | y]; simpl;
    try (left; reflexivity); try (right; reflexivity).
  - destruct x, y; simpl; auto.
  - destruct (Z.leb_spec x y); [now left | right]. apply Z.leb_le. lia.
  - apply String.leb_total.
  - destruct (Z.leb_spec (instant x) (instant y)); [now left | right]. apply Z.leb_le. lia.
  - destruct (N.leb_spec x y); [now left | right]. apply N.leb_le. lia.
Qed.

Lemma bson_leb_trans (a b c : value) :
  bson_leb a b = true -> bson_leb b c = true -> bson_leb a c = true.
Proof.
  destruct a as [| x | x | x | x | x | x | x], b as [| y | y | y | y | y | y | y],
      c as [| z | z | z | z | z | z | z]; simpl; try easy.
  - destruct x, y, z; simpl; easy.
  - rewrite !Z.leb_le. lia.
  - apply string_leb_trans.
  - rewrite !Z.leb_le. lia.
  - rewrite !N.leb_le. lia.
Qed.

(** On two datetimes the store's order is the order of the instants. *)
Lemma bson_leb_datetime (x y : datetime) :
  bson_leb (VDatetime x) (VDatetime y) = true <-> instant x <= instant y.
Proof. simpl. apply Z.leb_le. Qed.

(* ================================================================== *)
(** ** The stable sort *)
(* ================================================================== *)

Section Sorting.

Context {A : Type} (leb : A -> A -> bool).

Lemma insert_sorted_perm (x : A) (l : list A) :
  Permutation (x :: l) (insert_sorted leb x l).
Proof.
  induction l as [| y l IH]; simpl; [reflexivity |].
  destruct (leb x y); [reflexivity |].
  rewrite perm_swap. now constructor.
Qed.

Lemma sort_by_perm (l : list A) : Permutation l (sort_by leb l).
Proof.
  induction l as [| x l IH]; simpl; [constructor |].
  rewrite <- insert_sorted_perm. now constructor.
Qed.

Lemma sort_by_length (l : list A) : List.length (sort_by leb l) = List.length l.
Proof. symmetry. apply Permutation_length, sort_by_perm. Qed.

Hypothesis leb_total : forall a b, leb a b = true \/ leb b a = true.
Hypothesis leb_trans : forall a b c, leb a b = true -> leb b c = true -> leb a c = true.

Lemma insert_sorted_sorted (x : A) (l : list A) :
  StronglySorted (fun a b => leb a b = true) l ->
  StronglySorted (fun a b => leb a b = true) (insert_sorted leb x l).
Proof.
  induction 1 as [| y l Hs IH Hy]; simpl.
  - constructor; constructor.
  - destruct (leb x y) eqn:E.
    + constructor; [now constructor |].
      constructor; [exact E |].
      eapply Forall_impl; [| exact Hy]. intros z Hz. now apply (leb_trans x y z).
    + constructor; [exact IH |].
      assert (Hyx : leb y x = true) by (destruct (leb_total x y); congruence).
      eapply Permutation_Forall; [apply insert_sorted_perm |].
      now constructor.
Qed.

Lemma sort_by_sorted (l : list A) :
  StronglySorted (fun a b => leb a b = true) (sort_by leb l).
Proof.
  induction l as [| x l IH]; simpl; [constructor |].
  now apply insert_sorted_sorted.
Qed.

End Sorting.

Lemma insert_sorted_map {A B : Type} (f : A -> B) (leb : B -> B -> bool) (x : A) (l : list A) :
  insert_sorted leb (f x) (map f l)
  = map f (insert_sorted (fun a b => leb (f a) (f b)) x l).
Proof.
  induction l as [| y l IH]; simpl; [reflexivity |].
  destruct (leb (f x) (f y)); simpl; [reflexivity |]. now rewrite IH.
Qed.

Lemma sort_by_map {A B : Type} (f : A -> B) (leb : B -> B -> bool) (l : list A) :
  sort_by leb (map f l) = map f (sort_by (fun a b => leb (f a) (f b)) l).
Proof.
  induction l as [| x l IH]; simpl; [reflexivity |].
  rewrite IH. apply insert_sorted_map.
Qed.

Lemma firstn_In {A : Type} (n : nat) (l : list A) (x : A) :
  In x (firstn n l) -> In x l.
Proof.
  revert n. induction l as [| y l IH]; intros [| n]; simpl; try easy.
  intros [H | H]; [now left | right]. now apply (IH n).
Qed.

Lemma StronglySorted_impl {A : Type} (R R' : A -> A -> Prop) (l : list A) :
  (forall a b, R a b -> R' a b) -> StronglySorted R l -> StronglySorted R' l.
Proof.
  intros H. induction 1 as [| x l Hs IH Hx]; constructor; [exact IH |].
  eapply Forall_impl; [| exact Hx]. intros y. apply H.
Qed.

Lemma filter_all {A : Type} (p : A -> bool) (l : list A) :
  (forall a, p a = true) -> filter p l = l.
Proof.
  intros H. induction l as [| x l IH]; simpl; [reflexivity |].
  now rewrite H, IH.
Qed.

(* ================================================================== *)
(** ** [isoformat] prints ISO-8601 *)
(* ================================================================== *)

Lemma is_digit_digit_char (d : Z) : is_digit (digit_char d) = true.
Proof.
  unfold digit_char.
  assert (H : (Z.to_nat (d mod 10) < 10)%nat).
  { pose proof (Z.mod_pos_bound d 10 ltac:(lia)). lia. }
  destruct (Z.to_nat (d mod 10)) as [| k]; [reflexivity |].
  do 9 (destruct k as [| k]; [reflexivity |]). lia.
Qed.

Lemma eat_digits_pad_more (w k : nat) (n : Z) (acc : string) :
  eat_digits (w + k) (pad_dec w n acc) = eat_digits k acc.
Proof.
  revert k n acc. induction w as [| w IH]; intros k n acc; [reflexivity |].
  cbn [pad_dec]. replace (S w + k)%nat with (w + S k)%nat by lia.
  rewrite IH. cbn [eat_digits]. now rewrite is_digit_digit_char.
Qed.

Lemma eat_digits_pad (w : nat) (n : Z) (acc : string) :
  eat_digits w (pad_dec w n acc) = Some acc.
Proof.
  rewrite <- (Nat.add_0_r w) at 1. now rewrite eat_digits_pad_more.
Qed.

Lemma eat_offset_format (o : Z) : eat_offset (format_offset o) = Some EmptyString.
Proof.
  unfold eat_offset, format_offset.
  destruct (o <? 0); cbn [Ascii.eqb Bool.eqb orb];
    rewrite eat_digits_pad; cbn [and_then eat_char Ascii.eqb Bool.eqb];
    now rewrite eat_digits_pad.
Qed.

Lemma eat_fraction_offset (o : Z) :
  eat_fraction (format_offset o) = Some (format_offset o).
Proof. unfold eat_fraction, format_offset. now destruct (o <? 0). Qed.

Lemma isoformat_is_iso8601 (t : datetime) : is_iso8601 (isoformat t) = true.
Proof.
  unfold is_iso8601, isoformat.
  repeat (rewrite eat_digits_pad; cbn [and_then eat_char Ascii.eqb Bool.eqb]).
  destruct (microsecond t =? 0); destruct (utcoffset t) as [o |];
    cbn [append].
  - rewrite eat_fraction_offset. cbn [and_then]. now rewrite eat_offset_format.
  - reflexivity.
  - unfold eat_fraction. cbn [eat_char Ascii.eqb Bool.eqb].
    replace (pad_dec 6 (microsecond t) EmptyString ++ format_offset o)
      with (pad_dec 6 (microsecond t) (format_offset o)) by reflexivity.
    rewrite eat_digits_pad. cbn [and_then]. now rewrite eat_offset_format.
  - unfold eat_fraction. cbn [eat_char Ascii.eqb Bool.eqb].
    replace (pad_dec 6 (microsecond t) EmptyString ++ EmptyString)
      with (pad_dec 6 (microsecond t) EmptyString) by reflexivity.
    now rewrite eat_digits_pad.
Qed.

(* ================================================================== *)
(** ** Normalization of returned documents *)
(* ================================================================== *)

Lemma render_not_datetime (v : value) : (forall t, v <> VDatetime t) -> render v = v.
Proof. destruct v; simpl; intros H; try reflexivity. now elim (H t). Qed.

Lemma normalize_normalized (d : dict) (i : value) :
  dict_get "_id" d = Some i -> normalized_of d (normalize d).
Proof.
  intros Hid. unfold normalized_of, normalize, dict_pop. rewrite Hid.
  split; [| split].
  - exists i. split; [reflexivity |].
    rewrite dict_get_map_values, dict_get_set_same. reflexivity.
  - rewrite dict_get_map_values, dict_get_set_other by discriminate.
    now rewrite dict_get_remove_same.
  - intros k H1 H2.
    rewrite dict_get_map_values, dict_get_set_other by exact H2.
    now rewrite dict_get_remove_other by exact H1.
Qed.

(** What the loop body of the fallback does to one document. *)
Lemma recent_item_fields (r : dict) (i : value) :
  dict_get "_id" r = Some i ->
  exists item,
    recent_item r = Ok item
    /\ dict_get "id" item = Some (VStr (py_str i))
    /\ dict_get "_id" item = None
    /\ dict_get "timestamp" item = option_map render (dict_get "timestamp" r)
    /\ forall k, k <> "_id" -> k <> "id" -> k <> "timestamp" -> dict_get k item = dict_get k r.
Proof.
  intros Hid. unfold recent_item, dict_pop. rewrite Hid.
  set (r2 := dict_set "id" (VStr (py_str i)) (dict_remove "_id" r)).
  assert (Hts : dict_get "timestamp" r2 = dict_get "timestamp" r).
  { unfold r2. rewrite dict_get_set_other by discriminate.
    now rewrite dict_get_remove_other by discriminate. }
  assert (Hid2 : dict_get "id" r2 = Some (VStr (py_str i))).
  { unfold r2. apply dict_get_set_same. }
  assert (Hnat : dict_get "_id" r2 = None).
  { unfold r2. rewrite dict_get_set_other by discriminate. apply dict_get_remove_same. }
  assert (Hother : forall k, k <> "_id" -> k <> "id" -> dict_get k r2 = dict_get k r).
  { intros k H1 H2. unfold r2. rewrite dict_get_set_other by exact H2.
    now rewrite dict_get_remove_other by exact H1. }
  eexists. split; [reflexivity |].
  rewrite Hts.
  destruct (dict_get "timestamp" r) as [v |] eqn:Ev.
  - destruct v as [| b | n | s | t | o | l | m];
      try (simpl; repeat split; auto; intros; now apply Hother).
    split; [now rewrite dict_get_set_other by discriminate |].
    split; [now rewrite dict_get_set_other by discriminate |].
    split; [now rewrite dict_get_set_same |].
    intros k H1 H2 H3. rewrite dict_get_set_other by exact H3. now apply Hother.
  - simpl. repeat split; auto.
Qed.

Lemma mapM_Forall2 {A B C : Type} (g : A -> C) (f : C -> result B) (R : A -> B -> Prop)
  (l : list A) :
  Forall (fun a => exists b, f (g a) = Ok b /\ R a b) l ->
  exists bs, mapM f (map g l) = Ok bs /\ Forall2 R l bs.
Proof.
  induction 1 as [| a l [b [Hb Hr]] _ [bs [Hbs HF]]]; simpl.
  - exists []. split; [reflexivity | constructor].
  - exists (b :: bs). rewrite Hb. simpl. rewrite Hbs. simpl.
    split; [reflexivity | now constructor].
Qed.

Lemma Forall2_impl_left {A B : Type} (P : A -> Prop) (R R' : A -> B -> Prop)
  (l : list A) (m : list B) :
  (forall a b, P a -> R a b -> R' a b) -> Forall P l -> Forall2 R l m -> Forall2 R' l m.
Proof.
  intros H HP HR. induction HR as [| a b l m Hab _ IH]; [constructor |].
  inversion HP; subst. constructor; [now apply H | now apply IH].
Qed.

Lemma Forall2_map_right {A B : Type} (f : A -> B) (R : A -> B -> Prop) (l : list A) :
  Forall (fun a => R a (f a)) l -> Forall2 R l (map f l).
Proof. induction 1; simpl; now constructor. Qed.

Lemma Forall2_map_left {A B C : Type} (f : A -> B) (R : B -> C -> Prop) (l : list A) (m : list C) :
  Forall2 (fun a c => R (f a) c) l m -> Forall2 R (map f l) m.
Proof. induction 1; simpl; now constructor. Qed.

Lemma Forall_firstn {A : Type} (P : A -> Prop) (n : nat) (l : list A) :
  Forall P l -> Forall P (firstn n l).
Proof.
  intros H. apply Forall_forall. intros x Hx.
  apply (proj1 (Forall_forall _ _) H). eapply firstn_In; eassumption.
Qed.

Lemma Forall_filter_keep {A : Type} (P : A -> Prop) (p : A -> bool) (l : list A) :
  Forall P l -> Forall P (filter p l).
Proof.
  intros H. apply Forall_forall. intros x Hx. apply filter_In in Hx.
  now apply (proj1 (Forall_forall _ _) H).
Qed.

(** Every document [get_documents] returns carries its identifier. *)
Lemma get_documents_have_id (st : Store) (name : string) (filt : dict) (limit : Z) (docs : list dict) :
  get_documents st name filt limit = Ok docs ->
  Forall (fun d => exists i, dict_get "_id" d = Some i) docs.
Proof.
  unfold get_documents, db_getitem. destruct (guard st); simpl; [| discriminate].
  intros H. inversion H. subst. apply Forall_firstn, Forall_filter_keep.
  unfold coll_docs. simpl. apply Forall_map. apply Forall_forall. intros s _.
  now exists (VObjectId (doc_id s)).
Qed.

Lemma normalize_all (docs : list dict) :
  Forall (fun d => exists i, dict_get "_id" d = Some i) docs ->
  Forall2 normalized_of docs (map normalize docs).
Proof.
  intros H. apply Forall2_map_right. eapply Forall_impl; [| exact H].
  intros d [i Hi]. now apply (normalize_normalized d i).
Qed.

(* ================================================================== *)
(** ** Ask: the fallback *)
(* ================================================================== *)

(** The stored events the fallback reads: the first 20 in descending order
    of timestamp. *)
Lemma recent_cursor_list (st : Store) :
  fault st = None ->
  cursor_list (recent_cursor (mkCollection st "event"))
  = Ok (map (fun s => project ["event"; "user_id"; "timestamp"] (to_py s))
          (firstn 20 (sort_by (fun a b => bson_leb (stamp b) (stamp a))
                        (collections st "event")))).
Proof.
  intros Hs. unfold cursor_list, recent_cursor, cursor_select. cbn -[project sort_by firstn to_py].
  rewrite (guard_healthy st Hs). cbn [bind]. f_equal.
  unfold coll_docs. cbn [coll_store coll_name].
  rewrite filter_all by reflexivity.
  rewrite sort_by_map, firstn_map, map_map.
  change (PosDef.Pos.to_nat 20) with 20%nat.
  reflexivity.
Qed.

Lemma unrecognized_rules (payload : AskPayload) :
  unrecognized payload ->
  str_in "total" (strip (lower (question payload)))
  || (str_in "how many" (strip (lower (question payload)))
      && (str_in "event" (strip (lower (question payload))) || truthy (ask_event payload))) = false
  /\ str_in "by user" (strip (lower (question payload)))
     || str_in "per user" (strip (lower (question payload))) = false
  /\ str_in "by event" (strip (lower (question payload)))
     || str_in "per event" (strip (lower (question payload)))
     || str_in "events by name" (strip (lower (question payload))) = false.
Proof.
  unfold unrecognized, no_total_count. cbv zeta.
  intros [[Ht Hh] [Hu1 [Hu2 [He1 [He2 He3]]]]].
  rewrite Ht, Hu1, Hu2, He1, He2, He3. simpl. split; [| split; reflexivity].
  destruct Hh as [Hh | [He [Hn | Hn]]].
  - now rewrite Hh.
  - rewrite He, Hn. simpl. apply andb_false_r.
  - rewrite He, Hn. simpl. apply andb_false_r.
Qed.

Lemma ask_body_fallback (st : Store) (payload : AskPayload) :
  fault st = None ->
  unrecognized payload ->
  ask_question_body st payload
  = (recent <- cursor_list (recent_cursor (mkCollection st "event")) ;;
     recent <- mapM recent_item recent ;;
     Ok (mkAskResponse "Showing recent events" None (Some recent))).
Proof.
  intros Hs Hq. apply unrecognized_rules in Hq. destruct Hq as [H1 [H2 H3]].
  unfold ask_question_body. rewrite (db_getitem_healthy st Hs). cbn [bind].
  now rewrite H1, H2, H3.
Qed.

Lemma project_recent_fields (s : stored) :
  dict_get "_id" (project ["event"; "user_id"; "timestamp"] (to_py s))
  = Some (VObjectId (doc_id s))
  /\ (forall k, k = "event" \/ k = "user_id" \/ k = "timestamp" ->
        dict_get k (project ["event"; "user_id"; "timestamp"] (to_py s))
        = dict_get k (doc_fields s))
  /\ (forall k, k <> "_id" -> k <> "event" -> k <> "user_id" -> k <> "timestamp" ->
        dict_get k (project ["event"; "user_id"; "timestamp"] (to_py s)) = None).
Proof.
  split; [reflexivity |]. split.
  - intros k Hk. rewrite dict_get_project.
    destruct Hk as [-> | [-> | ->]]; reflexivity.
  - intros k H0 H1 H2 H3. rewrite dict_get_project.
    apply String.eqb_neq in H0, H1, H2, H3. simpl. now rewrite H0, H1, H2, H3.
Qed.

(** The fallback returns a view of each event it reads. *)
Lemma recent_item_view (s : stored) :
  exists item,
    recent_item (project ["event"; "user_id"; "timestamp"] (to_py s)) = Ok item
    /\ recent_view s item
    /\ (no_instant_names s ->
        normalized_of (project ["event"; "user_id"; "timestamp"] (to_py s)) item).
Proof.
  destruct (project_recent_fields s) as [Hid [Hin Hout]].
  destruct (recent_item_fields _ _ Hid) as [item [Hitem [Hi [Hn [Hts Hk]]]]].
  exists item. split; [exact Hitem |]. split.
  - unfold recent_view. split; [exact Hi |].
    split; [rewrite Hk by discriminate; apply Hin; auto |].
    split; [rewrite Hk by discriminate; apply Hin; auto |].
    split; [rewrite Hts; f_equal; apply Hin; auto |].
    intros k H1 H2 H3 H4.
    destruct (string_dec k "_id") as [-> | H0]; [exact Hn |].
    rewrite Hk by assumption. now apply Hout.
  - intros [Hev Hus]. unfold normalized_of. split; [| split].
    + exists (VObjectId (doc_id s)). now split.
    + exact Hn.
    + intros k H0 H1.
      destruct (string_dec k "timestamp") as [-> | H2]; [exact Hts |].
      rewrite Hk by assumption.
      destruct (string_dec k "event") as [-> | H3].
      { rewrite Hin by auto.
        destruct (dict_get "event" (doc_fields s)) as [v |] eqn:E; [| reflexivity].
        simpl. f_equal. symmetry. apply render_not_datetime. intros t ->. now apply (Hev t). }
      destruct (string_dec k "user_id") as [-> | H4].
      { rewrite Hin by auto.
        destruct (dict_get "user_id" (doc_fields s)) as [v |] eqn:E; [| reflexivity].
        simpl. f_equal. symmetry. apply render_not_datetime. intros t ->. now apply (Hus t). }
      now rewrite Hout.
Qed.

Lemma ask_fallback_response (st : Store) (payload : AskPayload) :
  fault st = None ->
  unrecognized payload ->
  exists items,
    ask_question st payload
    = Http200 (mkAskResponse "Showing recent events" None (Some items))
    /\ Forall2 recent_view
         (firstn 20 (sort_by (fun a b => bson_leb (stamp b) (stamp a)) (collections st "event")))
         items
    /\ (Forall no_instant_names (collections st "event") ->
        Forall2 normalized_of
          (map (fun s => project ["event"; "user_id"; "timestamp"] (to_py s))
             (firstn 20 (sort_by (fun a b => bson_leb (stamp b) (stamp a))
                           (collections st "event"))))
          items).
Proof.
  intros Hs Hq. unfold ask_question.
  rewrite (ask_body_fallback st payload Hs Hq), (recent_cursor_list st Hs). cbn [bind].
  set (sorted := sort_by _ (collections st "event")).
  assert (Hperm : Permutation (collections st "event") sorted) by apply sort_by_perm.
  destruct (mapM_Forall2
              (fun s => project ["event"; "user_id"; "timestamp"] (to_py s)) recent_item
              (fun s item =>
                 recent_view s item
                 /\ (no_instant_names s ->
                     normalized_of (project ["event"; "user_id"; "timestamp"] (to_py s)) item))
              (firstn 20 sorted)) as [items [Hitems HR]].
  { apply Forall_forall. intros s _.
    destruct (recent_item_view s) as [item [H1 [H2 H3]]]. now exists item. }
  rewrite Hitems. cbn [bind boundary]. exists items. split; [reflexivity |]. split.
  - eapply (Forall2_impl_left (fun _ => True)); [| | exact HR].
    + intros a b _ [H _]. exact H.
    + apply Forall_forall. easy.
  - intros Hni. apply Forall2_map_left.
    eapply (Forall2_impl_left no_instant_names); [| | exact HR].
    + intros a b Ha [_ H]. now apply H.
    + apply Forall_firstn. eapply Permutation_Forall; eassumption.
Qed.

Lemma recent_sorted (docs : list stored) :
  StronglySorted not_older (sort_by (fun a b => bson_leb (stamp b) (stamp a)) docs).
Proof.
  apply (sort_by_sorted (fun a b => bson_leb (stamp b) (stamp a))).
  - intros a b. destruct (bson_leb_total (stamp a) (stamp b)); auto.
  - intros a b c Hab Hbc. now apply (bson_leb_trans (stamp c) (stamp b) (stamp a)).
Qed.

Lemma Forall2_length_eq {A B : Type} (R : A -> B -> Prop) (l : list A) (m : list B) :
  Forall2 R l m -> List.length m = List.length l.
Proof. induction 1; simpl; congruence. Qed.

(** [unrecognized] is exactly the failure of the three tests of the
    dispatcher. *)
Lemma unrecognized_complete (payload : AskPayload) :
  str_in "total" (strip (lower (question payload)))
  || (str_in "how many" (strip (lower (question payload)))
      && (str_in "event" (strip (lower (question payload))) || truthy (ask_event payload))) = false ->
  str_in "by user" (strip (lower (question payload)))
  || str_in "per user" (strip (lower (question payload))) = false ->
  str_in "by event" (strip (lower (question payload)))
  || str_in "per event" (strip (lower (question payload)))
  || str_in "events by name" (strip (lower (question payload))) = false ->
  unrecognized payload.
Proof.
  intros H1 H2 H3. unfold unrecognized, no_total_count. cbv zeta.
  apply orb_false_iff in H1. destruct H1 as [Ht Hh].
  apply orb_false_iff in H2. destruct H2 as [Hu1 Hu2].
  apply orb_false_iff in H3. destruct H3 as [H3 He3].
  apply orb_false_iff in H3. destruct H3 as [He1 He2].
  repeat split; try assumption.
  apply andb_false_iff in Hh. destruct Hh as [Hh | Hh]; [now left | right].
  apply orb_false_iff in Hh. destruct Hh as [He Hev]. split; [exact He |].
  destruct (ask_event payload) as [[| c r] |]; simpl in Hev; auto. discriminate.
Qed.

Lemma unrecognized_empty (o : option string) : unrecognized (mkAskPayload EmptyString o).
Proof. unfold unrecognized, no_total_count. simpl. repeat split; auto. Qed.

(** C5.  For every question that matches none of the total-count, by-user
    and by-event rules, with a store that answers, ask succeeds with the
    answer "Showing recent events" and the items of the first 20 stored
    events in descending order of timestamp (so at most 20 items): each
    item has the string of the identifier as [id], the [event] and
    [user_id] as stored, the [timestamp] as the ISO-8601 string
    [isoformat] prints, and no other field. *)
Theorem ask_fallback_recent_events (st : Store) (payload : AskPayload) :
  fault st = None ->
  unrecognized payload ->
  exists (sorted : list stored) (items : list dict),
    Permutation (collections st "event") sorted
    /\ StronglySorted not_older sorted
    /\ ask_question st payload
       = Http200 (mkAskResponse "Showing recent events" None (Some items))
    /\ Forall2 recent_view (firstn 20 sorted) items
    /\ (List.length items <= 20)%nat
    /\ List.length items = Nat.min 20 (List.length (collections st "event"))
    /\ (forall a b ta tb, stamp a = VDatetime ta -> stamp b = VDatetime tb ->
          (not_older a b <-> instant tb <= instant ta))
    /\ (forall s item t, recent_view s item ->
          dict_get "timestamp" (doc_fields s) = Some (VDatetime t) ->
          dict_get "timestamp" item = Some (VStr (isoformat t))
          /\ is_iso8601 (isoformat t) = true).
Proof.
  intros Hs Hq.
  destruct (ask_fallback_response st payload Hs Hq) as [items [Hresp [Hviews _]]].
  exists (sort_by (fun a b => bson_leb (stamp b) (stamp a)) (collections st "event")), items.
  split; [apply sort_by_perm |].
  split; [apply recent_sorted |].
  split; [exact Hresp |].
  split; [exact Hviews |].
  pose proof (Forall2_length_eq _ _ _ Hviews) as Hlen.
  rewrite length_firstn, sort_by_length in Hlen.
  split; [lia |]. split; [exact Hlen |]. split.
  - intros a b ta tb Ha Hb. unfold not_older. rewrite Ha, Hb. apply bson_leb_datetime.
  - intros s item t [_ [_ [_ [Hts _]]]] Ht. rewrite Hts, Ht. simpl.
    split; [reflexivity | apply isoformat_is_iso8601].
Qed.

Lemma ask_fallback_recent_events_witness :
  fault scenario_store = None
  /\ unrecognized (mkAskPayload "asdkjasdlkj" None)
  /\ exists (sorted : list stored) (items : list dict),
       Permutation (collections scenario_store "event") sorted
       /\ StronglySorted not_older sorted
       /\ ask_question scenario_store (mkAskPayload "asdkjasdlkj" None)
          = Http200 (mkAskResponse "Showing recent events" None (Some items))
       /\ Forall2 recent_view (firstn 20 sorted) items
       /\ (List.length items <= 20)%nat.
Proof.
  split; [reflexivity |].
  split; [unfold unrecognized, no_total_count; simpl; repeat split; auto |].
  destruct (ask_fallback_recent_events scenario_store (mkAskPayload "asdkjasdlkj" None) eq_refl)
    as [sorted [items [H1 [H2 [H3 [H4 [H5 _]]]]]]].
  - unfold unrecognized, no_total_count; simpl; repeat split; auto.
  - exists sorted, items. repeat split; assumption.
Defined.

(** C7.  With a store that answers, every document returned by list, by
    query and by the ask fallback is the normalized form of the document
    the store returned for it: it has a string [id] (the string of the
    native identifier), it has no [_id], every other top-level field that
    holds a datetime holds its ISO-8601 [isoformat] string instead, and
    every other field, the nested [properties] mapping included, is
    unchanged.  For the fallback the stored events are taken to follow the
    data model (neither the event name nor the user id is a datetime);
    list and query need no such assumption. *)
Theorem returned_documents_are_normalized (st : Store) :
  fault st = None ->
  (forall limit, exists sources items,
      get_documents st "event" [] limit = Ok sources
      /\ list_events st limit = Http200 items
      /\ Forall2 normalized_of sources items)
  /\ (forall payload, exists sources items,
      get_documents st "event" (filter_or_empty (query_filter payload)) (query_limit payload)
      = Ok sources
      /\ query_events st payload = Http200 items
      /\ Forall2 normalized_of sources items)
  /\ (forall payload,
      unrecognized payload ->
      Forall no_instant_names (collections st "event") ->
      exists sources items,
        cursor_list (recent_cursor (mkCollection st "event")) = Ok sources
        /\ ask_question st payload
           = Http200 (mkAskResponse "Showing recent events" None (Some items))
        /\ Forall2 normalized_of sources items)
  /\ (forall source item, normalized_of source item ->
      (exists s, dict_get "id" item = Some (VStr s))
      /\ dict_get "_id" item = None
      /\ (forall k t, k <> "_id" -> k <> "id" -> dict_get k source = Some (VDatetime t) ->
            dict_get k item = Some (VStr (isoformat t)) /\ is_iso8601 (isoformat t) = true)
      /\ (forall k v, k <> "_id" -> k <> "id" -> dict_get k source = Some v ->
            (forall t, v <> VDatetime t) -> dict_get k item = Some v)
      /\ (forall m, dict_get "properties" source = Some (VDict m) ->
            dict_get "properties" item = Some (VDict m))
      /\ (forall k, k <> "_id" -> k <> "id" -> dict_get k source = None ->
            dict_get k item = None)).
Proof.
  intros Hs. split; [| split; [| split]].
  - intros limit.
    destruct (get_documents st "event" [] limit) as [docs | e] eqn:Hdocs.
    + exists docs, (map normalize docs). split; [reflexivity |].
      unfold list_events, list_events_body. rewrite Hdocs. split; [reflexivity |].
      apply normalize_all. eapply get_documents_have_id; eassumption.
    + rewrite (get_documents_healthy st Hs) in Hdocs. discriminate.
  - intros payload.
    destruct (get_documents st "event" (filter_or_empty (query_filter payload))
                (query_limit payload)) as [docs | e] eqn:Hdocs.
    + exists docs, (map normalize docs). split; [reflexivity |].
      unfold query_events, query_events_body. cbv zeta. rewrite Hdocs.
      split; [reflexivity |].
      apply normalize_all. eapply get_documents_have_id; eassumption.
    + rewrite (get_documents_healthy st Hs) in Hdocs. discriminate.
  - intros payload Hq Hni.
    destruct (ask_fallback_response st payload Hs Hq) as [items [Hresp [_ Hnorm]]].
    eexists. exists items. split; [apply (recent_cursor_list st Hs) |].
    split; [exact Hresp | now apply Hnorm].
  - intros source item [[i [Hi Hid]] [Hnat Hk]].
    split; [now exists (py_str i) |]. split; [exact Hnat |]. split; [| split; [| split]].
    + intros k t H1 H2 Hsrc. rewrite (Hk k H1 H2), Hsrc. simpl.
      split; [reflexivity | apply isoformat_is_iso8601].
    + intros k v H1 H2 Hsrc Hv. rewrite (Hk k H1 H2), Hsrc. simpl.
      now rewrite (render_not_datetime v Hv).
    + intros m Hsrc. rewrite (Hk "properties") by discriminate. now rewrite Hsrc.
    + intros k H1 H2 Hsrc. now rewrite (Hk k H1 H2), Hsrc.
Qed.

Lemma ingest_keeps_no_instant_names (now : datetime) (p : IngestEventPayload) (st : Store) :
  Forall no_instant_names (collections st "event") ->
  Forall no_instant_names (collections (snd (ingest_event now p st)) "event").
Proof.
  intros Hall. unfold ingest_event.
  destruct (ingest_event_body now p st) as [r st'] eqn:Hbody. simpl.
  destruct (string_dec (payload_event p) EmptyString) as [He | He].
  - rewrite (ingest_body_build_failure now p st _ (Event_new_empty p He)) in Hbody.
    inversion Hbody. now subst.
  - destruct (fault st) as [m |] eqn:Hs.
    + rewrite (ingest_body_storage_failure now p st m Hs He) in Hbody.
      inversion Hbody. now subst.
    + rewrite (ingest_body_success now p st Hs He) in Hbody.
      inversion Hbody. subst. rewrite store_insert_event.
      apply Forall_app. split; [exact Hall |].
      constructor; [| constructor]. split; simpl.
      * discriminate.
      * destruct (payload_user_id p); discriminate.
Qed.

Lemma scenario_no_instant_names : Forall no_instant_names (collections scenario_store "event").
Proof.
  unfold scenario_store.
  repeat apply ingest_keeps_no_instant_names. constructor.
Qed.

Lemma returned_documents_are_normalized_witness :
  fault scenario_store = None
  /\ (exists sources items,
        get_documents scenario_store "event" [] 2 = Ok sources
        /\ list_events scenario_store 2 = Http200 items
        /\ Forall2 normalized_of sources items)
  /\ (exists sources items,
        cursor_list (recent_cursor (mkCollection scenario_store "event")) = Ok sources
        /\ ask_question scenario_store (mkAskPayload EmptyString None)
           = Http200 (mkAskResponse "Showing recent events" None (Some items))
        /\ Forall2 normalized_of sources items).
Proof.
  split; [reflexivity |].
  destruct (returned_documents_are_normalized scenario_store eq_refl) as [Hlist [_ [Hask _]]].
  split; [apply Hlist |].
  apply Hask; [apply unrecognized_empty | apply scenario_no_instant_names].
Defined.

(* ================================================================== *)
(** ** Grouping and counting *)
(* ================================================================== *)

Lemma value_eq_dec (a b : value) : {a = b} + {a <> b}.
Proof.
  destruct (value_eqb a b) eqn:E.
  - left. now apply value_eqb_eq.
  - right. now apply value_eqb_neq.
Qed.

Lemma value_eqb_sym (a b : value) : value_eqb a b = value_eqb b a.
Proof.
  destruct (value_eqb a b) eqn:E.
  - apply value_eqb_eq in E. subst. symmetry. apply value_eqb_refl.
  - symmetry. apply value_eqb_neq. apply value_eqb_neq in E. congruence.
Qed.

Lemma bump_size (k k' : value) (acc : list (value * Z)) :
  group_size k' (bump k acc)
  = group_size k' acc + (if value_eqb k k' then 1 else 0).
Proof.
  induction acc as [| [k0 n] acc IH]; simpl.
  - rewrite (value_eqb_sym k' k). destruct (value_eqb k k'); lia.
  - destruct (value_eqb k k0) eqn:E; simpl.
    + apply value_eqb_eq in E. subst k0. rewrite (value_eqb_sym k' k).
      destruct (value_eqb k k'); lia.
    + rewrite IH. destruct (value_eqb k' k0); lia.
Qed.

Lemma bump_keys (k k' : value) (acc : list (value * Z)) :
  In k' (map fst (bump k acc)) <-> k' = k \/ In k' (map fst acc).
Proof.
  induction acc as [| [k0 n] acc IH]; simpl.
  - intuition.
  - destruct (value_eqb k k0) eqn:E; simpl.
    + apply value_eqb_eq in E. subst k0. intuition.
    + rewrite IH. intuition.
Qed.

Lemma bump_NoDup (k : value) (acc : list (value * Z)) :
  NoDup (map fst acc) -> NoDup (map fst (bump k acc)).
Proof.
  induction acc as [| [k0 n] acc IH]; simpl; intros Hnd.
  - constructor; [easy | constructor].
  - inversion Hnd as [| x l Hx Hl]; subst.
    destruct (value_eqb k k0) eqn:E; simpl.
    + now constructor.
    + constructor; [| now apply IH].
      rewrite bump_keys. intros [-> | Hin]; [| contradiction].
      rewrite value_eqb_refl in E. discriminate.
Qed.

Lemma bump_positive (k : value) (acc : list (value * Z)) :
  Forall (fun g => 0 < snd g) acc -> Forall (fun g => 0 < snd g) (bump k acc).
Proof.
  induction 1 as [| [k0 n] acc Hn Hacc IH]; simpl.
  - constructor; [simpl; lia | constructor].
  - destruct (value_eqb k k0); constructor; simpl in *; try lia; assumption.
Qed.

Section Groups.

Variable key : dict -> value.

Lemma fold_bump_size (k : value) (docs : list dict) (acc : list (value * Z)) :
  group_size k (fold_left (fun acc d => bump (key d) acc) docs acc)
  = group_size k acc
    + Z.of_nat (List.length (filter (fun d => value_eqb (key d) k) docs)).
Proof.
  revert acc. induction docs as [| d docs IH]; intros acc; simpl; [lia |].
  rewrite IH, bump_size. destruct (value_eqb (key d) k); simpl; lia.
Qed.

Lemma fold_bump_NoDup (docs : list dict) (acc : list (value * Z)) :
  NoDup (map fst acc) ->
  NoDup (map fst (fold_left (fun acc d => bump (key d) acc) docs acc)).
Proof.
  revert acc. induction docs as [| d docs IH]; intros acc H; simpl; [exact H |].
  apply IH. now apply bump_NoDup.
Qed.

Lemma fold_bump_positive (docs : list dict) (acc : list (value * Z)) :
  Forall (fun g => 0 < snd g) acc ->
  Forall (fun g => 0 < snd g) (fold_left (fun acc d => bump (key d) acc) docs acc).
Proof.
  revert acc. induction docs as [| d docs IH]; intros acc H; simpl; [exact H |].
  apply IH. now apply bump_positive.
Qed.

End Groups.

Lemma group_size_absent (k : value) (acc : list (value * Z)) :
  ~ In k (map fst acc) -> group_size k acc = 0.
Proof.
  induction acc as [| [k0 n] acc IH]; simpl; intros H; [reflexivity |].
  destruct (value_eqb k k0) eqn:E.
  - apply value_eqb_eq in E. subst. elim H. now left.
  - apply IH. intros Hin. apply H. now right.
Qed.

Lemma group_size_member (k : value) (n : Z) (acc : list (value * Z)) :
  NoDup (map fst acc) -> In (k, n) acc -> group_size k acc = n.
Proof.
  induction acc as [| [k0 m] acc IH]; simpl; intros Hnd Hin; [easy |].
  inversion Hnd as [| x l Hx Hl]; subst.
  destruct Hin as [Heq | Hin].
  - inversion Heq; subst. rewrite value_eqb_refl.
    rewrite (group_size_absent k acc Hx). lia.
  - destruct (value_eqb k k0) eqn:E.
    + apply value_eqb_eq in E. subst k0. elim Hx.
      change k with (fst (k, n)). now apply in_map.
    + now apply IH.
Qed.

(** The groups of a field are exactly the keys that occur, each once, with
    the number of documents that have the key. *)
Lemma group_count_spec (field : string) (docs : list dict) :
  NoDup (map fst (group_count field docs))
  /\ forall k n,
       In (k, n) (group_count field docs)
       <-> n = Z.of_nat (List.length (filter (fun d => value_eqb (field_or_null field d) k) docs))
           /\ 0 < n.
Proof.
  unfold group_count.
  pose proof (fold_bump_NoDup (field_or_null field) docs [] (NoDup_nil _)) as Hnd.
  pose proof (fold_bump_positive (field_or_null field) docs [] (Forall_nil _)) as Hpos.
  pose proof (fun k => fold_bump_size (field_or_null field) k docs []) as Hsize.
  set (groups := fold_left _ docs []) in *.
  split; [exact Hnd |]. intros k n. split.
  - intros Hin. split.
    + rewrite <- (group_size_member k n groups Hnd Hin), Hsize. simpl. lia.
    + apply (proj1 (Forall_forall _ _) Hpos (k, n) Hin).
  - intros [Hn Hp].
    assert (Hk : In k (map fst groups)).
    { destruct (in_dec value_eq_dec k (map fst groups)) as [Hin | Hout]; [exact Hin |].
      pose proof (group_size_absent k groups Hout) as H0.
      rewrite Hsize in H0. simpl in H0. lia. }
    apply in_map_iff in Hk. destruct Hk as [[k0 m] [Hfst Hin]]. simpl in Hfst. subst k0.
    pose proof (group_size_member k m groups Hnd Hin) as Hm.
    rewrite Hsize in Hm. simpl in Hm.
    replace n with m by lia. exact Hin.
Qed.

(* ================================================================== *)
(** ** Ask: the aggregations by user and by event *)
(* ================================================================== *)

Lemma no_total_count_rule (payload : AskPayload) :
  no_total_count payload ->
  str_in "total" (strip (lower (question payload)))
  || (str_in "how many" (strip (lower (question payload)))
      && (str_in "event" (strip (lower (question payload))) || truthy (ask_event payload))) = false.
Proof.
  unfold no_total_count. cbv zeta. intros [Ht Hh]. rewrite Ht. simpl.
  destruct Hh as [Hh | [He [Hn | Hn]]].
  - now rewrite Hh.
  - rewrite He, Hn. simpl. apply andb_false_r.
  - rewrite He, Hn. simpl. apply andb_false_r.
Qed.

Lemma filter_ext_eq {A : Type} (p q : A -> bool) (l : list A) :
  (forall a, p a = q a) -> filter p l = filter q l.
Proof.
  intros H. induction l as [| a l IH]; simpl; [reflexivity |].
  now rewrite H, IH.
Qed.

Lemma events_with_In (f : string) (k : value) (docs : list stored) (s : stored) :
  In s (events_with f k docs) <-> In s docs /\ field_key f s = k.
Proof.
  unfold events_with. rewrite filter_In, value_eqb_eq. reflexivity.
Qed.

(** The groups of a field of the stored events, largest first: one group
    per key that occurs, with the number of events under the key. *)
Lemma groups_largest_first (f : string) (docs : list stored) :
  f <> "_id" ->
  NoDup (map fst (sort_by (fun a b => snd b <=? snd a) (group_count f (map to_py docs))))
  /\ (forall k n,
        In (k, n) (sort_by (fun a b => snd b <=? snd a) (group_count f (map to_py docs)))
        <-> n = Z.of_nat (List.length (events_with f k docs)) /\ 0 < n)
  /\ StronglySorted (fun a b => snd b <= snd a)
       (sort_by (fun a b => snd b <=? snd a) (group_count f (map to_py docs))).
Proof.
  intros Hf.
  set (raw := group_count f (map to_py docs)).
  set (groups := sort_by (fun a b => snd b <=? snd a) raw).
  assert (Hperm : Permutation raw groups) by apply sort_by_perm.
  destruct (group_count_spec f (map to_py docs)) as [Hnd Hspec]. fold raw in Hnd, Hspec.
  assert (Hcount : forall k,
             List.length (filter (fun d => value_eqb (field_or_null f d) k) (map to_py docs))
             = List.length (events_with f k docs)).
  { intros k. unfold events_with. apply filter_length_map. intros s.
    unfold field_key, field_or_null. now rewrite (dict_get_to_py f s Hf). }
  split; [| split].
  - eapply Permutation_NoDup; [apply Permutation_map; exact Hperm | exact Hnd].
  - intros k n. rewrite <- Hcount, <- Hspec. split; intros H.
    + eapply Permutation_in; [apply Permutation_sym; exact Hperm | exact H].
    + eapply Permutation_in; [exact Hperm | exact H].
  - eapply StronglySorted_impl;
      [| apply (sort_by_sorted (fun a b : value * Z => snd b <=? snd a))].
    + intros a b H. now apply Z.leb_le in H.
    + intros a b. destruct (Z.leb_spec (snd b) (snd a)); [now left | right].
      apply Z.leb_le. lia.
    + intros a b c. rewrite !Z.leb_le. lia.
Qed.

(** What the two pipelines return: the documents [{_id, count}] of the
    first 20 (by user) or 50 (by event) groups, largest first. *)
Lemma by_user_aggregate (st : Store) :
  fault st = None ->
  aggregate (mkCollection st "event") by_user_pipeline
  = Ok (map group_doc
          (firstn 20 (sort_by (fun a b => snd b <=? snd a)
                        (group_count "user_id" (map to_py (collections st "event")))))).
Proof.
  intros Hs. rewrite (aggregate_healthy st Hs). f_equal.
  unfold by_user_pipeline. cbn [fold_left run_stage].
  rewrite sort_by_map, firstn_map. reflexivity.
Qed.

Lemma by_event_aggregate (st : Store) :
  fault st = None ->
  aggregate (mkCollection st "event") by_event_pipeline
  = Ok (map group_doc
          (firstn 50 (sort_by (fun a b => snd b <=? snd a)
                        (group_count "event" (map to_py (collections st "event")))))).
Proof.
  intros Hs. rewrite (aggregate_healthy st Hs). f_equal.
  unfold by_event_pipeline. cbn [fold_left run_stage].
  rewrite sort_by_map, firstn_map. reflexivity.
Qed.

Lemma by_user_items (l : list (value * Z)) :
  map by_user_item (map group_doc l) = map user_group_item l.
Proof. rewrite map_map. apply map_ext. intros [k n]. reflexivity. Qed.

Lemma by_event_items (l : list (value * Z)) :
  map by_event_item (map group_doc l) = map event_group_item l.
Proof. rewrite map_map. apply map_ext. intros [k n]. reflexivity. Qed.

Lemma ask_body_by_user (st : Store) (payload : AskPayload) :
  fault st = None ->
  no_total_count payload ->
  str_in "by user" (strip (lower (question payload))) = true
  \/ str_in "per user" (strip (lower (question payload))) = true ->
  ask_question_body st payload
  = Ok (mkAskResponse "Events by user" None
          (Some (map user_group_item
                   (firstn 20 (sort_by (fun a b => snd b <=? snd a)
                                 (group_count "user_id"
                                    (map to_py (collections st "event")))))))).
Proof.
  intros Hs Hnt Hby. unfold ask_question_body.
  rewrite (db_getitem_healthy st Hs). cbn [bind].
  rewrite (no_total_count_rule payload Hnt).
  assert (Hb : str_in "by user" (strip (lower (question payload)))
               || str_in "per user" (strip (lower (question payload))) = true).
  { apply orb_true_iff. exact Hby. }
  rewrite Hb, (by_user_aggregate st Hs). cbn [bind].
  now rewrite by_user_items.
Qed.

Lemma ask_body_by_event (st : Store) (payload : AskPayload) :
  fault st = None ->
  no_total_count payload ->
  str_in "by user" (strip (lower (question payload))) = false ->
  str_in "per user" (strip (lower (question payload))) = false ->
  str_in "by event" (strip (lower (question payload))) = true
  \/ str_in "per event" (strip (lower (question payload))) = true
  \/ str_in "events by name" (strip (lower (question payload))) = true ->
  ask_question_body st payload
  = Ok (mkAskResponse "Events by event name" None
          (Some (map event_group_item
                   (firstn 50 (sort_by (fun a b => snd b <=? snd a)
                                 (group_count "event"
                                    (map to_py (collections st "event")))))))).
Proof.
  intros Hs Hnt Hu1 Hu2 Hby. unfold ask_question_body.
  rewrite (db_getitem_healthy st Hs). cbn [bind].
  rewrite (no_total_count_rule payload Hnt), Hu1, Hu2. cbn [orb].
  assert (Hb : str_in "by event" (strip (lower (question payload)))
               || str_in "per event" (strip (lower (question payload)))
               || str_in "events by name" (strip (lower (question payload))) = true).
  { rewrite !orb_true_iff. tauto. }
  rewrite Hb, (by_event_aggregate st Hs). cbn [bind].
  now rewrite by_event_items.
Qed.

Lemma anonymous_null_key (s : stored) : value_eqb (field_key "user_id" s) VNone = anonymous s.
Proof.
  unfold field_key, anonymous, field_or_null.
  destruct (dict_get "user_id" (doc_fields s)) as [v |]; [| reflexivity].
  now destruct v.
Qed.

(** C6.  For every question whose lower-cased, trimmed text contains
    "by user" or "per user" and that does not trigger the total-count
    rule, with a store that answers, ask returns the answer "Events by
    user" and the items [{user_id, count}] of the first 20 groups of a
    list of groups that has one group per user key that occurs, with the
    number of stored events under that key as its count, and is in
    descending order of count.  Null is a group key like any other: the
    anonymous events (no [user_id], or a null one) are counted in the
    group of key null, and that group is among the items whenever there
    are at most 20 groups. *)
Theorem ask_by_user_groups (st : Store) (payload : AskPayload) :
  fault st = None ->
  no_total_count payload ->
  str_in "by user" (strip (lower (question payload))) = true
  \/ str_in "per user" (strip (lower (question payload))) = true ->
  exists groups : list (value * Z),
    ask_question st payload
    = Http200 (mkAskResponse "Events by user" None
                 (Some (map user_group_item (firstn 20 groups))))
    /\ NoDup (map fst groups)
    /\ (forall k n,
          In (k, n) groups
          <-> n = Z.of_nat (List.length (events_with "user_id" k (collections st "event")))
              /\ 0 < n)
    /\ (forall k s,
          In s (events_with "user_id" k (collections st "event"))
          <-> In s (collections st "event") /\ field_key "user_id" s = k)
    /\ StronglySorted (fun a b => snd b <= snd a) groups
    /\ (List.length (map user_group_item (firstn 20 groups)) <= 20)%nat
    /\ (forall g, user_group_item g = [("user_id", fst g); ("count", VInt (snd g))])
    /\ (forall s, anonymous s = true <-> field_key "user_id" s = VNone)
    /\ (Exists (fun s => anonymous s = true) (collections st "event") ->
          In (VNone, Z.of_nat (List.length (filter anonymous (collections st "event")))) groups)
    /\ ((List.length groups <= 20)%nat ->
        Exists (fun s => anonymous s = true) (collections st "event") ->
        In [("user_id", VNone);
            ("count", VInt (Z.of_nat (List.length (filter anonymous (collections st "event")))))]
           (map user_group_item (firstn 20 groups))).
Proof.
  intros Hs Hnt Hby.
  destruct (groups_largest_first "user_id" (collections st "event") ltac:(discriminate))
    as [Hnd [Hin Hsorted]].
  set (groups := sort_by (fun a b => snd b <=? snd a)
                   (group_count "user_id" (map to_py (collections st "event")))) in *.
  assert (Hnull : Exists (fun s => anonymous s = true) (collections st "event") ->
                  In (VNone, Z.of_nat (List.length (filter anonymous (collections st "event"))))
                    groups).
  { intros Hex. apply Hin. unfold events_with.
    rewrite (filter_ext_eq (fun s => value_eqb (field_key "user_id" s) VNone) anonymous)
      by apply anonymous_null_key.
    split; [reflexivity |].
    apply Exists_exists in Hex. destruct Hex as [s [Hs1 Hs2]].
    assert (Hmem : In s (filter anonymous (collections st "event")))
      by (apply filter_In; now split).
    destruct (filter anonymous (collections st "event")); [easy | simpl; lia]. }
  exists groups.
  split.
  { unfold ask_question. now rewrite (ask_body_by_user st payload Hs Hnt Hby). }
  split; [exact Hnd |].
  split; [exact Hin |].
  split; [intros k s; apply events_with_In |].
  split; [exact Hsorted |].
  split.
  { rewrite length_map. apply firstn_le_length. }
  split; [reflexivity |].
  split.
  { intros s. rewrite <- anonymous_null_key. apply value_eqb_eq. }
  split; [exact Hnull |].
  intros Hlen Hex. rewrite firstn_all2 by exact Hlen.
  apply (in_map user_group_item) in Hnull; [exact Hnull | exact Hex].
Qed.

Lemma ask_by_user_groups_witness :
  fault scenario_store = None
  /\ no_total_count (mkAskPayload "Count per user" None)
  /\ ask_question scenario_store (mkAskPayload "Count per user" None)
     = Http200 (mkAskResponse "Events by user" None
                  (Some [[("user_id", VStr "u1"); ("count", VInt 2)];
                         [("user_id", VStr "u2"); ("count", VInt 1)];
                         [("user_id", VNone); ("count", VInt 1)]]))
  /\ exists groups : list (value * Z),
       ask_question scenario_store (mkAskPayload "Count per user" None)
       = Http200 (mkAskResponse "Events by user" None
                    (Some (map user_group_item (firstn 20 groups))))
       /\ In (VNone, 1) groups.
Proof.
  split; [reflexivity |].
  split; [unfold no_total_count; simpl; auto |].
  split; [reflexivity |].
  destruct (ask_by_user_groups scenario_store (mkAskPayload "Count per user" None) eq_refl)
    as [groups [H1 [_ [_ [_ [_ [_ [_ [_ [H9 _]]]]]]]]]].
  - unfold no_total_count; simpl; auto.
  - right. reflexivity.
  - exists groups. split; [exact H1 |].
    apply H9. apply Exists_exists.
    exists (mkStored 3 (Event_dump (mkEvent "view" None [("page", VDict [("path", VStr "/")])]
                                   (Some (later noon 3))))).
    split; [| reflexivity]. simpl. auto.
Defined.

(** X1.  The by-event intent.  For every question that triggers neither the
    total-count rule nor the by-user rule and whose lower-cased, trimmed
    text contains "by event", "per event" or "events by name", with a store
    that answers, ask returns the answer "Events by event name" and the
    items [{event, count}] of the first 50 groups of the event names,
    largest first, each with the number of stored events of that name. *)
Theorem ask_by_event_groups (st : Store) (payload : AskPayload) :
  fault st = None ->
  no_total_count payload ->
  str_in "by user" (strip (lower (question payload))) = false ->
  str_in "per user" (strip (lower (question payload))) = false ->
  str_in "by event" (strip (lower (question payload))) = true
  \/ str_in "per event" (strip (lower (question payload))) = true
  \/ str_in "events by name" (strip (lower (question payload))) = true ->
  exists groups : list (value * Z),
    ask_question st payload
    = Http200 (mkAskResponse "Events by event name" None
                 (Some (map event_group_item (firstn 50 groups))))
    /\ NoDup (map fst groups)
    /\ (forall k n,
          In (k, n) groups
          <-> n = Z.of_nat (List.length (events_with "event" k (collections st "event")))
              /\ 0 < n)
    /\ (forall k s,
          In s (events_with "event" k (collections st "event"))
          <-> In s (collections st "event") /\ field_key "event" s = k)
    /\ StronglySorted (fun a b => snd b <= snd a) groups
    /\ (List.length (map event_group_item (firstn 50 groups)) <= 50)%nat.
Proof.
  intros Hs Hnt Hu1 Hu2 Hby.
  destruct (groups_largest_first "event" (collections st "event") ltac:(discriminate))
    as [Hnd [Hin Hsorted]].
  eexists. split.
  { unfold ask_question. now rewrite (ask_body_by_event st payload Hs Hnt Hu1 Hu2 Hby). }
  split; [exact Hnd |].
  split; [exact Hin |].
  split; [intros k s; apply events_with_In |].
  split; [exact Hsorted |].
  rewrite length_map. apply firstn_le_length.
Qed.

Lemma ask_by_event_groups_witness :
  fault scenario_store = None
  /\ exists groups : list (value * Z),
       ask_question scenario_store (mkAskPayload "Events per event" None)
       = Http200 (mkAskResponse "Events by event name" None
                    (Some (map event_group_item (firstn 50 groups))))
       /\ StronglySorted (fun a b => snd b <= snd a) groups.
Proof.
  split; [reflexivity |].
  destruct (ask_by_event_groups scenario_store (mkAskPayload "Events per event" None) eq_refl)
    as [groups [H1 [_ [_ [_ [H5 _]]]]]].
  - unfold no_total_count; simpl; auto.
  - reflexivity.
  - reflexivity.
  - right. left. reflexivity.
  - exists groups. now split.
Defined.

(** X2.  The by-user rule is tested before the by-event rule: a question that
    matches both (and not the total-count rule) gets the by-user answer. *)
Theorem ask_by_user_wins_over_by_event (st : Store) (payload : AskPayload) :
  fault st = None ->
  no_total_count payload ->
  str_in "by user" (strip (lower (question payload))) = true ->
  str_in "by event" (strip (lower (question payload))) = true ->
  exists its,
    ask_question st payload = Http200 (mkAskResponse "Events by user" None (Some its))
    /\ forall its', ask_question st payload
                    <> Http200 (mkAskResponse "Events by event name" None its').
Proof.
  intros Hs Hnt Hu _. unfold ask_question.
  rewrite (ask_body_by_user st payload Hs Hnt (or_introl Hu)). simpl.
  eexists. split; [reflexivity |]. intros its' H. inversion H.
Qed.

Lemma ask_by_user_wins_over_by_event_witness :
  fault scenario_store = None
  /\ exists its,
       ask_question scenario_store (mkAskPayload "events by event by user" None)
       = Http200 (mkAskResponse "Events by user" None (Some its)).
Proof.
  split; [reflexivity |].
  destruct (ask_by_user_wins_over_by_event scenario_store
              (mkAskPayload "events by event by user" None) eq_refl)
    as [its [H _]].
  - unfold no_total_count; simpl; auto.
  - reflexivity.
  - reflexivity.
  - now exists its.
Defined.

(** The end-to-end scenario: after the ingests of two signups (by u1 and
    by u2) and of a login by u1, the question "how many signup" with the
    event filter "signup" is answered with the count 2, and the question
    "events by name" with the groups of signup (2) and login (1), largest
    first. *)
Theorem end_to_end_scenario :
  ask_question three_events_store (mkAskPayload "how many signup" (Some "signup"))
  = Http200 (mkAskResponse "Total events: 2" (Some 2) None)
  /\ ask_question three_events_store (mkAskPayload "events by name" None)
     = Http200 (mkAskResponse "Events by event name" None
                  (Some [[("event", VStr "signup"); ("count", VInt 2)];
                         [("event", VStr "login"); ("count", VInt 1)]]))
  /\ List.length (collections three_events_store "event") = 3%nat.
Proof.
  split; [| split].
  - vm_compute. reflexivity.
  - vm_compute. reflexivity.
  - reflexivity.
Qed.

(* ================================================================== *)
(** ** GET /test: the diagnostic report *)
(* ================================================================== *)

Lemma str_take_length (n : nat) (s : string) :
  String.length (str_take n s) = Nat.min n (String.length s).
Proof.
  unfold str_take. revert s. induction n as [| n IH]; intros [| c s]; simpl; try reflexivity.
  now rewrite IH.
Qed.

Lemma str_take_prefix (n : nat) (s : string) : String.prefix (str_take n s) s = true.
Proof.
  unfold str_take. revert s. induction n as [| n IH]; intros [| c s]; simpl; try reflexivity.
  rewrite IH. destruct (ascii_dec c c); [reflexivity | congruence].
Qed.

Lemma str_take_all (n : nat) (s : string) :
  (String.length s <= n)%nat -> str_take n s = s.
Proof.
  unfold str_take. revert s. induction n as [| n IH]; intros [| c s]; simpl; intros H;
    try reflexivity; try lia.
  rewrite IH by lia. reflexivity.
Qed.

(** X4.  The report of the diagnostic endpoint, whatever the database
    handle and the environment: the backend is always running; the
    connection status is "Connected" exactly when there is a handle, also
    when the listing fails; the database is reported as connected and
    working exactly when there is a handle and the listing succeeds, and
    then the collections are the first 10 names listed; without a handle,
    or when the listing fails, no collection is reported.  The initial
    "Not Available" text and the text of the outer handler are never
    returned. *)
Theorem test_database_report (db : option Database) (env : Environ) :
  tr_backend (test_database db env) = "✅ Running"
  /\ (tr_connection_status (test_database db env) = "Connected" <-> db <> None)
  /\ (tr_connection_status (test_database db env) = "Not Connected" <-> db = None)
  /\ (tr_database (test_database db env) = "✅ Connected & Working"
      <-> exists d names, db = Some d /\ db_list_collection_names d = Ok names)
  /\ (forall d names, db = Some d -> db_list_collection_names d = Ok names ->
        tr_collections (test_database db env) = firstn 10 names)
  /\ (forall d e, db = Some d -> db_list_collection_names d = Raise e ->
        tr_collections (test_database db env) = []
        /\ tr_database (test_database db env)
           = "⚠️  Connected but Error: " ++ str_take 50 (exn_str e))
  /\ (db = None ->
        tr_collections (test_database db env) = []
        /\ tr_database (test_database db env) = "⚠️  Available but not initialized")
  /\ (List.length (tr_collections (test_database db env)) <= 10)%nat
  /\ tr_database (test_database db env) <> "❌ Not Available"
  /\ forall m, tr_database (test_database db env) <> "❌ Error: " ++ m.
Proof.
  unfold test_database, test_database_try.
  destruct db as [d |].
  - destruct (db_list_collection_names d) as [names | e] eqn:Hl; simpl.
    + split; [reflexivity |].
      split; [split; [discriminate | reflexivity] |].
      split; [split; [discriminate | intros H; discriminate] |].
      split; [split; [intros _; now exists d, names | reflexivity] |].
      split; [intros d' names' Hd Hn; inversion Hd; subst; rewrite Hl in Hn; now inversion Hn |].
      split; [intros d' e Hd He; inversion Hd; subst; rewrite Hl in He; discriminate |].
      split; [discriminate |].
      split; [exact (firstn_le_length 10 names) |].
      split; [discriminate | intros m; discriminate].
    + split; [reflexivity |].
      split; [split; [discriminate | reflexivity] |].
      split; [split; [discriminate | intros H; discriminate] |].
      split.
      { split; [intros H; discriminate |].
        intros [d' [names [Hd Hn]]]. inversion Hd; subst. rewrite Hl in Hn. discriminate. }
      split; [intros d' names' Hd Hn; inversion Hd; subst; rewrite Hl in Hn; discriminate |].
      split.
      { intros d' e' Hd He. inversion Hd; subst. rewrite Hl in He. inversion He; subst.
        split; reflexivity. }
      split; [discriminate |].
      split; [simpl; lia |].
      split; [discriminate | intros m; discriminate].
  - simpl.
    split; [reflexivity |].
    split; [split; [discriminate | intros H; now elim H] |].
    split; [split; reflexivity |].
    split; [split; [discriminate | intros [d [names [Hd _]]]; discriminate] |].
    split; [discriminate |].
    split; [discriminate |].
    split; [intros _; split; reflexivity |].
    split; [lia |].
    split; [discriminate | intros m; discriminate].
Qed.

(** X5.  The two fields [database_url] and [database_name] of the report
    depend on the environment alone: each is "Set" exactly when its
    variable is set to a non-empty value and "Not Set" otherwise (an empty
    value counts as not set).  What the first part of the function stores
    in them, the name of the database included, never reaches the
    caller. *)
Theorem test_database_env_fields (db : option Database) (env : Environ) :
  (tr_database_url (test_database db env) = Some "✅ Set"
   <-> exists v, env_DATABASE_URL env = Some v /\ v <> EmptyString)
  /\ (tr_database_url (test_database db env) = Some "❌ Not Set"
      <-> env_DATABASE_URL env = None \/ env_DATABASE_URL env = Some EmptyString)
  /\ (tr_database_name (test_database db env) = Some "✅ Set"
      <-> exists v, env_DATABASE_NAME env = Some v /\ v <> EmptyString)
  /\ (tr_database_name (test_database db env) = Some "❌ Not Set"
      <-> env_DATABASE_NAME env = None \/ env_DATABASE_NAME env = Some EmptyString)
  /\ (forall db',
        tr_database_url (test_database db' env) = tr_database_url (test_database db env)
        /\ tr_database_name (test_database db' env)
           = tr_database_name (test_database db env)).
Proof.
  assert (Hu : forall d, tr_database_url (test_database d env)
                         = Some (if truthy (env_DATABASE_URL env) then "✅ Set" else "❌ Not Set")).
  { intros d. unfold test_database. destruct (test_database_try d test_initial) as [[u | e] r];
      reflexivity. }
  assert (Hn : forall d, tr_database_name (test_database d env)
                         = Some (if truthy (env_DATABASE_NAME env) then "✅ Set" else "❌ Not Set")).
  { intros d. unfold test_database. destruct (test_database_try d test_initial) as [[u | e] r];
      reflexivity. }
  split; [| split; [| split; [| split]]].
  - rewrite Hu, <- truthy_iff. destruct (truthy (env_DATABASE_URL env)); split;
      try reflexivity; discriminate.
  - rewrite Hu. destruct (env_DATABASE_URL env) as [[| c s] |]; simpl; split; auto;
      try discriminate.
    intros [H | H]; discriminate.
  - rewrite Hn, <- truthy_iff. destruct (truthy (env_DATABASE_NAME env)); split;
      try reflexivity; discriminate.
  - rewrite Hn. destruct (env_DATABASE_NAME env) as [[| c s] |]; simpl; split; auto;
      try discriminate.
    intros [H | H]; discriminate.
  - intros db'. now rewrite !Hu, !Hn.
Qed.

(** X6.  When the listing of the collections fails, the report carries at
    most the first 50 characters of the failure text after its fixed
    prefix: the text in full when it has at most 50 characters, its prefix
    of length 50 otherwise. *)
Theorem test_database_error_truncated (d : Database) (env : Environ) (e : exn) :
  db_list_collection_names d = Raise e ->
  exists m,
    tr_database (test_database (Some d) env) = "⚠️  Connected but Error: " ++ m
    /\ String.length m = Nat.min 50 (String.length (exn_str e))
    /\ String.prefix m (exn_str e) = true
    /\ ((String.length (exn_str e) <= 50)%nat -> m = exn_str e).
Proof.
  intros Hl. exists (str_take 50 (exn_str e)).
  split; [| split; [| split]].
  - unfold test_database, test_database_try. rewrite Hl. reflexivity.
  - apply str_take_length.
  - apply str_take_prefix.
  - apply str_take_all.
Qed.

Lemma test_database_error_truncated_witness :
  db_list_collection_names (mkDatabase (Some "lytikz") (Raise (StorageError long_failure)))
  = Raise (StorageError long_failure)
  /\ exists m,
       tr_database (test_database
                      (Some (mkDatabase (Some "lytikz") (Raise (StorageError long_failure))))
                      (mkEnviron None None))
       = "⚠️  Connected but Error: " ++ m
       /\ String.length m = 50%nat.
Proof.
  split; [reflexivity |].
  destruct (test_database_error_truncated
              (mkDatabase (Some "lytikz") (Raise (StorageError long_failure)))
              (mkEnviron None None) (StorageError long_failure) eq_refl)
    as [m [H1 [H2 _]]].
  exists m. split; [exact H1 |]. rewrite H2. reflexivity.
Defined.

(* ================================================================== *)
(** ** Ask: every question is answered, whatever its case and padding *)
(* ================================================================== *)

Lemma no_total_count_complete (payload : AskPayload) :
  str_in "total" (strip (lower (question payload)))
  || (str_in "how many" (strip (lower (question payload)))
      && (str_in "event" (strip (lower (question payload))) || truthy (ask_event payload))) = false ->
  no_total_count payload.
Proof.
  intros H1. unfold no_total_count. cbv zeta.
  apply orb_false_iff in H1. destruct H1 as [Ht Hh]. split; [exact Ht |].
  apply andb_false_iff in Hh. destruct Hh as [Hh | Hh]; [now left | right].
  apply orb_false_iff in Hh. destruct Hh as [He Hev]. split; [exact He |].
  destruct (ask_event payload) as [[| c r] |]; simpl in Hev; auto. discriminate.
Qed.

Lemma counted_nonneg (o : option string) (docs : list stored) : 0 <= counted o docs.
Proof. unfold counted. destruct o as [[| c r] |]; apply Nat2Z.is_nonneg. Qed.

(** X7.  With a store that answers, ask never fails: whatever the question
    and the event filter, the response is a 200 with one of the four
    answers, carrying a count (and no items) for the total-count intent
    and items (and no count) for the three others, at most 20 for the
    by-user intent and the fallback and at most 50 for the by-event
    intent. *)
Theorem ask_always_answers (st : Store) (payload : AskPayload) :
  fault st = None ->
  exists resp,
    ask_question st payload = Http200 resp
    /\ ((exists n, resp = mkAskResponse ("Total events: " ++ str_of_int n) (Some n) None
                   /\ 0 <= n)
        \/ (exists its, resp = mkAskResponse "Events by user" None (Some its)
                        /\ (List.length its <= 20)%nat)
        \/ (exists its, resp = mkAskResponse "Events by event name" None (Some its)
                        /\ (List.length its <= 50)%nat)
        \/ (exists its, resp = mkAskResponse "Showing recent events" None (Some its)
                        /\ (List.length its <= 20)%nat)).
Proof.
  intros Hs. unfold ask_question.
  destruct (str_in "total" (strip (lower (question payload)))
            || (str_in "how many" (strip (lower (question payload)))
                && (str_in "event" (strip (lower (question payload)))
                    || truthy (ask_event payload)))) eqn:Htotal.
  { rewrite (ask_body_total st payload Hs Htotal). eexists. split; [reflexivity |].
    left. eexists. split; [reflexivity | apply counted_nonneg]. }
  pose proof (no_total_count_complete payload Htotal) as Hnt.
  destruct (str_in "by user" (strip (lower (question payload)))
            || str_in "per user" (strip (lower (question payload)))) eqn:Huser.
  { apply orb_true_iff in Huser.
    rewrite (ask_body_by_user st payload Hs Hnt Huser). eexists. split; [reflexivity |].
    right. left. eexists. split; [reflexivity |].
    rewrite length_map. apply firstn_le_length. }
  destruct (str_in "by event" (strip (lower (question payload)))
            || str_in "per event" (strip (lower (question payload)))
            || str_in "events by name" (strip (lower (question payload)))) eqn:Hevent.
  { pose proof Huser as Huser'.
    apply orb_false_iff in Huser'. destruct Huser' as [Hu1 Hu2].
    assert (Hby : str_in "by event" (strip (lower (question payload))) = true
                  \/ str_in "per event" (strip (lower (question payload))) = true
                  \/ str_in "events by name" (strip (lower (question payload))) = true).
    { rewrite !orb_true_iff in Hevent. tauto. }
    rewrite (ask_body_by_event st payload Hs Hnt Hu1 Hu2 Hby). eexists. split; [reflexivity |].
    right. right. left. eexists. split; [reflexivity |].
    rewrite length_map. apply firstn_le_length. }
  pose proof (unrecognized_complete payload Htotal Huser Hevent) as Hq.
  destruct (ask_fallback_response st payload Hs Hq) as [its [Hresp [Hviews _]]].
  unfold ask_question in Hresp. rewrite Hresp. eexists. split; [reflexivity |].
  right. right. right. exists its. split; [reflexivity |].
  rewrite (Forall2_length_eq _ _ _ Hviews). apply firstn_le_length.
Qed.

Lemma ask_always_answers_witness :
  fault scenario_store = None
  /\ exists resp,
       ask_question scenario_store (mkAskPayload "what happened per event?" (Some "login"))
       = Http200 resp.
Proof.
  split; [reflexivity |].
  destruct (ask_always_answers scenario_store
              (mkAskPayload "what happened per event?" (Some "login")) eq_refl)
    as [resp [H _]].
  now exists resp.
Defined.

Lemma lower_app (a b : string) : lower (a ++ b) = lower a ++ lower b.
Proof. induction a as [| c a IH]; simpl; [reflexivity | now rewrite IH]. Qed.

Lemma lower_char_space (c : ascii) : is_space c = true -> lower_char c = c.
Proof.
  unfold is_space, lower_char. cbv zeta. intros H.
  destruct ((65 <=? nat_of_ascii c)%nat && (nat_of_ascii c <=? 90)%nat) eqn:E; [| reflexivity].
  exfalso.
  apply andb_true_iff in E. destruct E as [E1 E2].
  apply Nat.leb_le in E1. apply Nat.leb_le in E2.
  apply orb_true_iff in H. destruct H as [H | H];
    apply andb_true_iff in H; destruct H as [H1 H2];
    apply Nat.leb_le in H1; apply Nat.leb_le in H2; lia.
Qed.

Lemma lower_all_space (w : string) : all_space w = true -> lower w = w.
Proof.
  induction w as [| c w IH]; simpl; [reflexivity |].
  intros H. apply andb_true_iff in H. destruct H as [Hc Hw].
  now rewrite (lower_char_space c Hc), IH.
Qed.

Lemma lstrip_app_space (w s : string) : all_space w = true -> lstrip (w ++ s) = lstrip s.
Proof.
  induction w as [| c w IH]; simpl; [reflexivity |].
  intros H. apply andb_true_iff in H. destruct H as [Hc Hw].
  rewrite Hc. now apply IH.
Qed.

Lemma lstrip_all_space (w : string) : all_space w = true -> lstrip w = EmptyString.
Proof.
  induction w as [| c w IH]; simpl; [reflexivity |].
  intros H. apply andb_true_iff in H. destruct H as [Hc Hw].
  rewrite Hc. now apply IH.
Qed.

Lemma str_app_assoc (a b c : string) : (a ++ b) ++ c = a ++ (b ++ c).
Proof. induction a as [| x a IH]; simpl; [reflexivity | now rewrite IH]. Qed.

Lemma str_app_empty (a : string) : a ++ EmptyString = a.
Proof. induction a as [| x a IH]; simpl; [reflexivity | now rewrite IH]. Qed.

Lemma str_rev_onto_app (s acc : string) : str_rev_onto s acc = str_rev s ++ acc.
Proof.
  unfold str_rev. revert acc. induction s as [| c s IH]; intros acc; simpl; [reflexivity |].
  rewrite (IH (String c acc)), (IH (String c EmptyString)), str_app_assoc. reflexivity.
Qed.

Lemma str_rev_app (a b : string) : str_rev (a ++ b) = str_rev b ++ str_rev a.
Proof.
  induction a as [| c a IH]; simpl.
  - now rewrite str_app_empty.
  - unfold str_rev in *. simpl.
    rewrite (str_rev_onto_app (a ++ b)), (str_rev_onto_app a).
    unfold str_rev. rewrite IH, str_app_assoc. reflexivity.
Qed.

Lemma all_space_app (a b : string) : all_space (a ++ b) = all_space a && all_space b.
Proof.
  induction a as [| c a IH]; simpl; [reflexivity |].
  now rewrite IH, andb_assoc.
Qed.

Lemma all_space_rev (w : string) : all_space (str_rev w) = all_space w.
Proof.
  induction w as [| c w IH]; [reflexivity |].
  change (String c w) with (String c EmptyString ++ w).
  rewrite str_rev_app, !all_space_app, IH. simpl. apply andb_comm.
Qed.

Lemma rstrip_app_space (s w : string) : all_space w = true -> rstrip (s ++ w) = rstrip s.
Proof.
  intros H. unfold rstrip. rewrite str_rev_app.
  rewrite lstrip_app_space; [reflexivity |]. now rewrite all_space_rev.
Qed.

Lemma strip_app_space (s w : string) : all_space w = true -> strip (s ++ w) = strip s.
Proof.
  intros H. unfold strip. induction s as [| c s IH]; simpl.
  - now rewrite (lstrip_all_space w H).
  - destruct (is_space c); [exact IH |].
    change (String c (s ++ w)) with (String c s ++ w). now apply rstrip_app_space.
Qed.

Lemma strip_padding (w1 s w2 : string) :
  all_space w1 = true -> all_space w2 = true -> strip (w1 ++ s ++ w2) = strip s.
Proof.
  intros H1 H2. rewrite <- (strip_app_space s w2 H2).
  unfold strip. now rewrite lstrip_app_space.
Qed.

(** The dispatcher reads the question through its lower-cased, trimmed
    text only. *)
Lemma ask_question_normal_form (st : Store) (p1 p2 : AskPayload) :
  strip (lower (question p1)) = strip (lower (question p2)) ->
  ask_event p1 = ask_event p2 ->
  ask_question st p1 = ask_question st p2.
Proof.
  intros Hq He. unfold ask_question, ask_question_body. cbv zeta. now rewrite Hq, He.
Qed.

(** X8.  Ask does not see the case of the letters nor the whitespace
    around the question: two questions that agree up to letter case get
    the same response from the same store with the same event filter, also
    when one of them is padded with whitespace on either side. *)
Theorem ask_ignores_case_and_padding
  (st : Store) (q q' w1 w2 : string) (e : option string) :
  all_space w1 = true ->
  all_space w2 = true ->
  lower q = lower q' ->
  ask_question st (mkAskPayload (w1 ++ q ++ w2) e) = ask_question st (mkAskPayload q' e).
Proof.
  intros H1 H2 Hq. apply ask_question_normal_form; [| reflexivity].
  cbn [question]. rewrite !lower_app, (lower_all_space w1 H1), (lower_all_space w2 H2), Hq.
  now apply strip_padding.
Qed.

Lemma ask_ignores_case_and_padding_witness :
  all_space "  " = true
  /\ all_space (String (ascii_of_nat 10) EmptyString) = true
  /\ lower "How MANY Events" = lower "how many events"
  /\ ask_question scenario_store
       (mkAskPayload ("  " ++ "How MANY Events" ++ String (ascii_of_nat 10) EmptyString) None)
     = ask_question scenario_store (mkAskPayload "how many events" None).
Proof.
  split; [reflexivity | split; [reflexivity | split; [reflexivity |]]].
  exact (ask_ignores_case_and_padding scenario_store "How MANY Events" "how many events"
           "  " (String (ascii_of_nat 10) EmptyString) None eq_refl eq_refl eq_refl).
Defined.

(* ================================================================== *)
(** ** Ingestion composed with the read handlers *)
(* ================================================================== *)

(** X9.  The outcomes of ingest: the response is a 200 exactly when the
    event could be built and the store accepted the write, and then
    exactly one document was appended to the event collection and the
    response carries the string of its identifier; every other outcome is
    a 500 that leaves the store as it was.  No outcome touches another
    collection or the availability of the store. *)
Theorem ingest_outcomes (now : datetime) (p : IngestEventPayload) (st : Store) :
  ((exists r, fst (ingest_event now p st) = Http200 r)
   <-> fault st = None /\ exists evt, Event_new p = Ok evt)
  /\ (forall r, fst (ingest_event now p st) = Http200 r ->
        r = mkIngestResponse "ok" (str_ObjectId (next_oid st))
        /\ exists d, collections (snd (ingest_event now p st)) "event"
                     = (collections st "event" ++ [mkStored (next_oid st) d])%list)
  /\ (forall s d, fst (ingest_event now p st) = HttpError s d ->
        s = 500 /\ snd (ingest_event now p st) = st)
  /\ (forall name, name <> "event" ->
        collections (snd (ingest_event now p st)) name = collections st name)
  /\ fault (snd (ingest_event now p st)) = fault st.
Proof.
  unfold ingest_event, ingest_event_body, create_document.
  destruct (Event_new p) as [evt | e]; [destruct (fault st) as [m |] eqn:Hs |]; simpl.
  - split; [split; [intros [r H]; discriminate | intros [H _]; discriminate] |].
    split; [intros r H; discriminate |].
    split; [intros s d H; inversion H; now split |].
    split; [reflexivity | exact Hs].
  - split; [split; [intros _; split; [reflexivity | now exists evt] | intros _; eexists; reflexivity] |].
    split; [intros r H; inversion H; split; [reflexivity | eexists; reflexivity] |].
    split; [intros s d H; discriminate |].
    split; [| exact Hs].
    intros name Hne. apply String.eqb_neq in Hne. now rewrite Hne.
  - split; [split; [intros [r H]; discriminate | intros [_ [evt H]]; discriminate] |].
    split; [intros r H; discriminate |].
    split; [intros s d H; inversion H; now split |].
    split; reflexivity.
Qed.

Lemma ingest_success_store (now : datetime) (p : IngestEventPayload) (st : Store) :
  fault st = None ->
  payload_event p <> EmptyString ->
  fault (snd (ingest_event now p st)) = None
  /\ fst (ingest_event now p st)
     = Http200 (mkIngestResponse "ok" (str_ObjectId (next_oid st)))
  /\ collections (snd (ingest_event now p st)) "event"
     = (collections st "event"
        ++ [mkStored (next_oid st)
              (Event_dump (mkEvent (payload_event p) (payload_user_id p) (payload_properties p)
                             (Some (match payload_timestamp p with
                                    | Some t => t
                                    | None => now
                                    end))))])%list.
Proof.
  intros Hs He. unfold ingest_event. rewrite (ingest_body_success now p st Hs He). simpl.
  split; [exact Hs |]. split; reflexivity.
Qed.

Lemma counted_app_one (o : option string) (docs : list stored) (s : stored) (name : string) :
  dict_get "event" (doc_fields s) = Some (VStr name) ->
  counted o (docs ++ [s]) = counted o docs + count_step o name.
Proof.
  intros Hname. unfold counted, count_step, events_named.
  destruct o as [[| c r] |].
  - rewrite length_app. simpl. lia.
  - rewrite filter_app, length_app. simpl. rewrite Hname.
    destruct (String.eqb name (String c r)); simpl; lia.
  - rewrite length_app. simpl. lia.
Qed.

(** X10.  An accepted ingest is seen by the total-count intent at once:
    for a question under the total-count rule, the count after the ingest
    is the count before plus one, unless the question comes with a
    non-empty event filter that names another event, in which case it is
    unchanged.  Nothing is deduplicated: an event equal to a stored one
    counts again. *)
Theorem ingest_then_ask_total
  (now : datetime) (p : IngestEventPayload) (st : Store) (a : AskPayload) :
  fault st = None ->
  payload_event p <> EmptyString ->
  total_count_rule a ->
  exists n,
    ask_question st a
    = Http200 (mkAskResponse ("Total events: " ++ str_of_int n) (Some n) None)
    /\ ask_question (snd (ingest_event now p st)) a
       = Http200 (mkAskResponse
                    ("Total events: "
                       ++ str_of_int (n + match ask_event a with
                                          | Some (String c r) =>
                                              if String.eqb (payload_event p) (String c r)
                                              then 1 else 0
                                          | _ => 1
                                          end))
                    (Some (n + match ask_event a with
                               | Some (String c r) =>
                                   if String.eqb (payload_event p) (String c r) then 1 else 0
                               | _ => 1
                               end))
                    None).
Proof.
  intros Hs He Hrule.
  assert (Hb : str_in "total" (strip (lower (question a)))
               || (str_in "how many" (strip (lower (question a)))
                   && (str_in "event" (strip (lower (question a))) || truthy (ask_event a)))
               = true).
  { unfold total_count_rule in Hrule. cbv zeta in Hrule.
    rewrite orb_true_iff, andb_true_iff, orb_true_iff, truthy_iff. exact Hrule. }
  destruct (ingest_success_store now p st Hs He) as [Hs' [_ Hdocs]].
  exists (counted (ask_event a) (collections st "event")).
  unfold ask_question.
  rewrite (ask_body_total st a Hs Hb), (ask_body_total _ a Hs' Hb), Hdocs.
  rewrite (counted_app_one (ask_event a) _ _ (payload_event p)) by reflexivity.
  split; reflexivity.
Qed.

Lemma ingest_then_ask_total_witness :
  fault scenario_store = None
  /\ payload_event (mkIngestEventPayload "signup" (Some "u1") [] None) <> EmptyString
  /\ total_count_rule (mkAskPayload "how many?" (Some "signup"))
  /\ ask_question scenario_store (mkAskPayload "how many?" (Some "signup"))
     = Http200 (mkAskResponse "Total events: 2" (Some 2) None)
  /\ exists n,
       ask_question
         (snd (ingest_event noon (mkIngestEventPayload "signup" (Some "u1") [] None)
                 scenario_store))
         (mkAskPayload "how many?" (Some "signup"))
       = Http200 (mkAskResponse ("Total events: " ++ str_of_int (n + 1)) (Some (n + 1)) None).
Proof.
  assert (Hrule : total_count_rule (mkAskPayload "how many?" (Some "signup"))).
  { right. split; [reflexivity |]. right.
    exists "signup". split; [reflexivity | discriminate]. }
  split; [reflexivity | split; [discriminate | split; [exact Hrule | split; [reflexivity |]]]].
  destruct (ingest_then_ask_total noon (mkIngestEventPayload "signup" (Some "u1") [] None)
              scenario_store (mkAskPayload "how many?" (Some "signup"))
              eq_refl ltac:(discriminate) Hrule) as [n [_ H]].
  exists n. exact H.
Defined.






(* ================================================================== *)
(** ** Normalization as a function on dicts *)
(* ================================================================== *)

Lemma render_idempotent (v : value) : render (render v) = render v.
Proof. now destruct v. Qed.

Lemma map_render_idempotent (d : dict) :
  map (fun kv => (fst kv, render (snd kv))) (map (fun kv => (fst kv, render (snd kv))) d)
  = map (fun kv => (fst kv, render (snd kv))) d.
Proof.
  rewrite map_map. apply map_ext. intros [k v]. simpl. now rewrite render_idempotent.
Qed.

Lemma normalize_without_id (d : dict) :
  dict_get "_id" d = None -> normalize d = map (fun kv => (fst kv, render (snd kv))) d.
Proof. intros H. unfold normalize, dict_pop. now rewrite H. Qed.

Lemma normalize_drops_native_id (d : dict) : dict_get "_id" (normalize d) = None.
Proof.
  destruct (dict_get "_id" d) as [i |] eqn:Hid.
  - apply (normalize_normalized d i Hid).
  - rewrite (normalize_without_id d Hid), dict_get_map_values, Hid. reflexivity.
Qed.

(** X3.  [normalize] on any dict.  It is idempotent.  A document without
    [_id] keeps its keys, in order, and gets no [id]: only its datetimes
    are rewritten.  A document with [_id] gets the string of that value as
    [id] also when it already has a field [id], whose value is replaced.
    The result never has the key [_id]. *)
Theorem normalize_idempotent_and_edges :
  (forall d, normalize (normalize d) = normalize d)
  /\ (forall d, dict_get "_id" d = None ->
        map fst (normalize d) = map fst d
        /\ forall k, dict_get k (normalize d) = option_map render (dict_get k d))
  /\ (forall d i old, dict_get "_id" d = Some i -> dict_get "id" d = Some old ->
        dict_get "id" (normalize d) = Some (VStr (py_str i)))
  /\ (forall d, dict_get "_id" (normalize d) = None).
Proof.
  split; [| split; [| split]].
  - intros d. rewrite (normalize_without_id (normalize d) (normalize_drops_native_id d)).
    unfold normalize. apply map_render_idempotent.
  - intros d Hid. rewrite (normalize_without_id d Hid). split.
    + rewrite map_map. reflexivity.
    + intros k. apply dict_get_map_values.
  - intros d i old Hid _.
    destruct (normalize_normalized d i Hid) as [[i' [Hi' Hnew]] _].
    rewrite Hid in Hi'. inversion Hi'; subst i'. exact Hnew.
  - apply normalize_drops_native_id.
Qed.

(* ================================================================== *)
(** ** The fallback after an ingest *)
(* ================================================================== *)





